(** * Single-player Blackjack ([MISC/singleplayer.py]): model and properties

    The Python program is embedded shallowly.  Pure computations become
    functions; everything that touches the process state (the class-level
    list [Shoe.shoe], the random generator, the console) is written in a
    small state-and-exception monad [M] over the record [World].  Objects
    that are owned by exactly one holder ([Hand], [Player], [Dealer],
    [Table]) are records passed explicitly. *)

From Stdlib Require Import ZArith List String Ascii Bool Lia Permutation DecimalString.
Import ListNotations.
Open Scope string_scope.
Open Scope Z_scope.

(** ** Python primitives used by the program *)

Module Py.

(** The exceptions the program can meet: [int] of a malformed string,
    [list.pop] on an empty list, [input] at end of input. *)
Inductive Exn : Type := ValueError | IndexError | EOFError.

(** The characters [int] skips around a number: tab, line feed, vertical
    tab, form feed, carriage return, space. *)
Definition is_space (a : ascii) : bool :=
  let n := nat_of_ascii a in
  (((9 <=? n) && (n <=? 13)) || (n =? 32))%nat.

(** Every character of the string is an ASCII character. *)
Definition is_ascii (s : string) : bool :=
  forallb (fun a => (nat_of_ascii a <? 128)%nat) (list_ascii_of_string s).

Definition digit_of (a : ascii) : option Z :=
  let n := nat_of_ascii a in
  if ((48 <=? n) && (n <=? 57))%nat then Some (Z.of_nat n - 48) else None.

Fixpoint lstrip (s : list ascii) : list ascii :=
  match s with
  | c :: s' => if is_space c then lstrip s' else s
  | [] => []
  end.

Definition strip (s : list ascii) : list ascii := rev (lstrip (rev (lstrip s))).

(** Decimal digits, a single underscore allowed between two digits. *)
Fixpoint digits (acc : Z) (after_digit : bool) (s : list ascii) : option Z :=
  match s with
  | [] => if after_digit then Some acc else None
  | c :: s' =>
      if Ascii.eqb c "_" then
        if after_digit then digits acc false s' else None
      else
        match digit_of c with
        | Some d => digits (10 * acc + d) true s'
        | None => None
        end
  end.

(** [int(s)] for a string [s], base 10: surrounding whitespace is dropped,
    one sign is accepted, then digits.  [None] stands for [ValueError].
    This is [int] on strings of ASCII characters.  A number is only ever
    returned on such a string ([int_Some_is_ascii] below), so a result
    [Some n] is the interpreter's on every string; a result [None] is the
    interpreter's [ValueError] on strings of ASCII characters only, since
    the interpreter also reads the decimal digits and the whitespace of
    other scripts.  Statements about a refused string therefore require
    [is_ascii].  The interpreter's optional cap on the number of digits is
    not part of the model. *)
Definition int (s : string) : option Z :=
  match strip (list_ascii_of_string s) with
  | c :: s' =>
      if Ascii.eqb c "-" then option_map Z.opp (digits 0 false s')
      else if Ascii.eqb c "+" then digits 0 false s'
      else digits 0 false (c :: s')
  | [] => None
  end.

(** [str(n)] for an integer. *)
Definition str (n : Z) : string := NilZero.string_of_int (Z.to_int n).

Definition lower_ascii (a : ascii) : ascii :=
  let n := nat_of_ascii a in
  if ((65 <=? n) && (n <=? 90))%nat then ascii_of_nat (n + 32) else a.

(** [s.lower()], on the ASCII letters. *)
Fixpoint lower (s : string) : string :=
  match s with
  | EmptyString => EmptyString
  | String c s' => String (lower_ascii c) (lower s')
  end.

(** [sub in s] for strings. *)
Fixpoint contains (sub s : string) : bool :=
  if String.prefix sub s then true
  else match s with
       | EmptyString => false
       | String _ s' => contains sub s'
       end.

(** [sep.join(l)]. *)
Fixpoint join (sep : string) (l : list string) : string :=
  match l with
  | [] => ""
  | [x] => x
  | x :: l' => x ++ sep ++ join sep l'
  end.

(** [x in l] for a list of strings. *)
Definition mem (x : string) (l : list string) : bool :=
  existsb (String.eqb x) l.

(** The newline character, written [\n] in the source. *)
Definition nl : string := String (ascii_of_nat 10) EmptyString.

End Py.

(** ** Cards *)

Record Card : Type := mkCard { rank : string; suit : string }.

(** [Card.__str__] *)
Definition Card_str (self : Card) : string := suit self ++ rank self.

(** ** Hands *)

Module Hand.

Record t : Type := mk { cards : list Card }.

(** [Hand.__init__] *)
Definition init : t := mk [].

Definition add_card (self : t) (card : Card) : t := mk (cards self ++ [card]).

(** One pass of the [for card in self.cards] loop on the running
    [(value, aces)]; [None] when [int(card.rank)] raises [ValueError]. *)
Definition count_card (value : Z) (aces : nat) (card : Card) : option (Z * nat) :=
  if Py.mem (rank card) ["J"; "Q"; "K"] then Some (value + 10, aces)
  else if String.eqb (rank card) "A" then Some (value + 11, S aces)
  else match Py.int (rank card) with
       | Some n => Some (value + n, aces)
       | None => None
       end.

Fixpoint count_cards (cs : list Card) (value : Z) (aces : nat) : option (Z * nat) :=
  match cs with
  | [] => Some (value, aces)
  | card :: cs' =>
      match count_card value aces card with
      | Some (value', aces') => count_cards cs' value' aces'
      | None => None
      end
  end.

(** [while value > 21 and aces: value -= 10; aces -= 1] *)
Fixpoint adjust_aces (value : Z) (aces : nat) : Z :=
  if 21 <? value then
    match aces with
    | S aces' => adjust_aces (value - 10) aces'
    | O => value
    end
  else value.

Definition calculate_value (self : t) : option Z :=
  match count_cards (cards self) 0 0%nat with
  | Some (value, aces) => Some (adjust_aces value aces)
  | None => None
  end.

(** [Hand.__str__] *)
Definition str (self : t) : option string :=
  match calculate_value self with
  | Some v =>
      Some ("[" ++ Py.join ", " (map Card_str (cards self)) ++ "] (Value: "
            ++ Py.str v ++ ")")
  | None => None
  end.

End Hand.

(** ** Process state and effects *)

(** What the console saw, in order: a line written by [print], the prompt
    written by [input], and the line [input] then read. *)
Inductive Event : Type :=
| Printed (s : string)
| Prompted (s : string)
| Typed (s : string).

(** The state of the running process outside the objects the table owns:
    the class attribute [Shoe.shoe] (one list for the class, reached as
    [self.shoe] from every instance, since no method ever assigns
    [self.shoe]); the random generator, as an arbitrary sequence of numbers
    and the count of those already consumed; the lines still to be read
    from standard input; the console history. *)
Record World : Type := mkWorld {
  Shoe_shoe : list Card;
  rand : nat -> nat;
  rand_pos : nat;
  stdin : list string;
  console : list Event
}.

Definition set_shoe (x : list Card) (w : World) : World :=
  mkWorld x (rand w) (rand_pos w) (stdin w) (console w).

Definition log (e : Event) (w : World) : World :=
  mkWorld (Shoe_shoe w) (rand w) (rand_pos w) (stdin w) (console w ++ [e]).

(** The result of running a piece of the program: it returns, it raises, or
    the model's bound on loop iterations ran out before either. *)
Inductive Outcome (A : Type) : Type :=
| Ret (a : A) (w : World)
| Raise (e : Py.Exn) (w : World)
| OutOfFuel.
Arguments Ret {A} a w.
Arguments Raise {A} e w.
Arguments OutOfFuel {A}.

Definition M (A : Type) : Type := World -> Outcome A.

Definition ret {A} (a : A) : M A := fun w => Ret a w.

Definition bind {A B} (c : M A) (k : A -> M B) : M B :=
  fun w =>
    match c w with
    | Ret a w' => k a w'
    | Raise e w' => Raise e w'
    | OutOfFuel => OutOfFuel
    end.

Definition raise {A} (e : Py.Exn) : M A := fun w => Raise e w.

Definition out_of_fuel {A} : M A := fun _ => OutOfFuel.

Definition exn_eqb (a b : Py.Exn) : bool :=
  match a, b with
  | Py.ValueError, Py.ValueError => true
  | Py.IndexError, Py.IndexError => true
  | Py.EOFError, Py.EOFError => true
  | _, _ => false
  end.

(** [try: body  except e: handler] *)
Definition try_except {A} (body : M A) (e : Py.Exn) (handler : M A) : M A :=
  fun w =>
    match body w with
    | Raise e' w' => if exn_eqb e' e then handler w' else Raise e' w'
    | r => r
    end.

Declare Scope py_scope.
Delimit Scope py_scope with py.
Notation "x <- c1 ;; c2" := (bind c1 (fun x => c2))
  (at level 61, c1 at next level, right associativity) : py_scope.
Notation "c1 ;; c2" := (bind c1 (fun _ => c2))
  (at level 61, right associativity) : py_scope.
Open Scope py_scope.

(** A pure computation that may raise [ValueError]. *)
Definition or_ValueError {A} (o : option A) : M A :=
  match o with
  | Some a => ret a
  | None => raise Py.ValueError
  end.

(** [for x in l: body(x)] *)
Fixpoint for_ {A} (l : list A) (body : A -> M unit) : M unit :=
  match l with
  | [] => ret tt
  | x :: l' => body x ;; for_ l' body
  end.

(** [range(n)] *)
Definition range (n : Z) : list Z := map Z.of_nat (seq 0 (Z.to_nat n)).

Definition print (s : string) : M unit := fun w => Ret tt (log (Printed s) w).

(** [input(prompt)]: the prompt is written, then a line is read;
    [EOFError] when standard input has ended. *)
Definition input (prompt : string) : M string :=
  fun w =>
    let w1 := log (Prompted prompt) w in
    match stdin w1 with
    | line :: rest =>
        Ret line
          (log (Typed line)
             (mkWorld (Shoe_shoe w1) (rand w1) (rand_pos w1) rest (console w1)))
    | [] => Raise Py.EOFError w1
    end.

(** *** [random.shuffle] *)

Fixpoint update {A} (l : list A) (i : nat) (v : A) : list A :=
  match l, i with
  | [], _ => []
  | _ :: l', O => v :: l'
  | a :: l', S i' => a :: update l' i' v
  end.

(** [x[i], x[j] = x[j], x[i]] for indices inside the list. *)
Definition swap {A} (x : list A) (i j : nat) : list A :=
  match nth_error x i, nth_error x j with
  | Some xi, Some xj => update (update x i xj) j xi
  | _, _ => x
  end.

(** The library's loop
    [for i in reversed(range(1, len(x))): j = randbelow(i + 1); swap],
    each [randbelow] taking the next number of the generator. *)
Fixpoint shuffle_from {A} (i : nat) (x : list A) (rnd : nat -> nat) (pos : nat)
  : list A * nat :=
  match i with
  | O => (x, pos)
  | S i' =>
      let j := (rnd pos mod (i + 1))%nat in
      shuffle_from i' (swap x i j) rnd (S pos)
  end.

Definition random_shuffle {A} (x : list A) (rnd : nat -> nat) (pos : nat)
  : list A * nat :=
  shuffle_from (List.length x - 1) x rnd pos.

(** ** The shoe *)

Module Shoe.

Definition ranks : list string :=
  ["2"; "3"; "4"; "5"; "6"; "7"; "8"; "9"; "10"; "J"; "Q"; "K"; "A"].
Definition suits : list string := ["♠"; "♣"; "♥"; "♦"].

(** An instance holds [deck_count]; its [self.shoe] is the class list. *)
Record t : Type := mk { deck_count : Z }.

Definition is_empty (self : t) : M bool :=
  fun w => Ret (Nat.eqb (List.length (Shoe_shoe w)) 0) w.

(** [self.shoe.append(card)] *)
Definition append (card : Card) : M unit :=
  fun w => Ret tt (set_shoe (Shoe_shoe w ++ [card])%list w).

(** [random.shuffle(self.shoe)] *)
Definition shuffle_shoe : M unit :=
  fun w =>
    let (x, pos) := random_shuffle (Shoe_shoe w) (rand w) (rand_pos w) in
    Ret tt (mkWorld x (rand w) pos (stdin w) (console w)).

Definition shuffle (self : t) (deck_count : Z) : M unit :=
  for_ (range deck_count) (fun _ =>
    for_ suits (fun suit =>
      for_ ranks (fun rank =>
        append (mkCard rank suit)))) ;;
  shuffle_shoe.

(** [Shoe.__init__], whose default [deck_count] is 6. *)
Definition init (deck_count : Z) : M t :=
  let self := mk deck_count in
  shuffle self deck_count ;;
  ret self.

(** [l.pop()]: the last element and the list without it. *)
Definition pop_last {A} (l : list A) : option (A * list A) :=
  match rev l with
  | a :: r => Some (a, rev r)
  | [] => None
  end.

(** [self.shoe.pop()] *)
Definition pop : M Card :=
  fun w =>
    match pop_last (Shoe_shoe w) with
    | Some (card, x) => Ret card (set_shoe x w)
    | None => Raise Py.IndexError w
    end.

Definition deal_card (self : t) : M Card :=
  empty <- is_empty self ;;
  (if empty : bool then
     shuffle self (deck_count self) ;;
     print "Shoe was empty, reshuffled."
   else ret tt) ;;
  pop.

End Shoe.

(** ** The player *)

Module Player.

Record t : Type := mk { balance : Z; hand : Hand.t }.

(** [Player.__init__], whose default balance is 100. *)
Definition init (balance : Z) : t := mk balance Hand.init.

Definition set_balance (self : t) (b : Z) : t := mk b (hand self).
Definition set_hand (self : t) (h : Hand.t) : t := mk (balance self) h.

(** [while True:] around a [try]; one unit of fuel per pass.  The body
    yields [Some bet] where the source returns and [None] where it goes
    round again. *)
Fixpoint place_bet (fuel : nat) (self : t) : M Z :=
  match fuel with
  | O => out_of_fuel
  | S fuel' =>
      r <- try_except
             (line <- input ("Your current balance is $" ++ Py.str (balance self)
                             ++ ". Place your bet: $") ;;
              bet <- or_ValueError (Py.int line) ;;
              if bet <? 1 then
                print "Bet must be at least $1." ;; ret None
              else if balance self <? bet then
                print "You don't have enough money to place that bet." ;; ret None
              else ret (Some bet))
             Py.ValueError
             (print "Invalid input. Please enter a number." ;; ret None) ;;
      match r with
      | Some bet => ret bet
      | None => place_bet fuel' self
      end
  end.

Definition reset_hand (self : t) : t := set_hand self Hand.init.

End Player.

(** ** The dealer *)

Module Dealer.

Record t : Type := mk { hand : Hand.t }.

Definition init : t := mk Hand.init.

Definition reset_hand (self : t) : t := mk Hand.init.

(** [while self.hand.calculate_value() < 17: self.hand.add_card(shoe.deal_card())],
    one unit of fuel per evaluation of the loop test. *)
Fixpoint play_turn (fuel : nat) (self : t) (shoe : Shoe.t) : M t :=
  match fuel with
  | O => out_of_fuel
  | S fuel' =>
      v <- or_ValueError (Hand.calculate_value (hand self)) ;;
      if v <? 17 then
        card <- Shoe.deal_card shoe ;;
        play_turn fuel' (mk (Hand.add_card (hand self) card)) shoe
      else ret self
  end.

End Dealer.

(** ** The table *)

Module Table.

Record t : Type := mk { shoe : Shoe.t; player : Player.t; dealer : Dealer.t }.

Definition set_player (self : t) (p : Player.t) : t := mk (shoe self) p (dealer self).
Definition set_dealer (self : t) (d : Dealer.t) : t := mk (shoe self) (player self) d.

(** [Table.__init__] *)
Definition init : M t :=
  s <- Shoe.init 6 ;;
  ret (mk s (Player.init 100) Dealer.init).

(** [print(hand)] *)
Definition print_hand (h : Hand.t) : M unit :=
  s <- or_ValueError (Hand.str h) ;;
  print s.

Definition display_hands (self : t) (hide_dealer_card : bool) : M unit :=
  print (Py.nl ++ "Your hand:") ;;
  print_hand (Player.hand (player self)) ;;
  print (Py.nl ++ "Dealer's hand:") ;;
  if hide_dealer_card then
    print ("[Hidden, "
           ++ Py.join ", " (map Card_str (tl (Hand.cards (Dealer.hand (dealer self)))))
           ++ "]")
  else print_hand (Dealer.hand (dealer self)).

(** [self.player.hand.add_card(self.shoe.deal_card())] *)
Definition deal_to_player (self : t) : M t :=
  card <- Shoe.deal_card (shoe self) ;;
  ret (set_player self
         (Player.set_hand (player self) (Hand.add_card (Player.hand (player self)) card))).

(** [self.dealer.hand.add_card(self.shoe.deal_card())] *)
Definition deal_to_dealer (self : t) : M t :=
  card <- Shoe.deal_card (shoe self) ;;
  ret (set_dealer self (Dealer.mk (Hand.add_card (Dealer.hand (dealer self)) card))).

(** [while True:] with one [input] per pass; the result is the returned
    boolean with the table as the turn left it. *)
Fixpoint player_turn (fuel : nat) (self : t) : M (bool * t) :=
  match fuel with
  | O => out_of_fuel
  | S fuel' =>
      display_hands self true ;;
      line <- input "Do you want to hit or stand? (h/s): " ;;
      let action := Py.lower line in
      if String.eqb action "h" then
        self <- deal_to_player self ;;
        v <- or_ValueError (Hand.calculate_value (Player.hand (player self))) ;;
        if 21 <? v then
          print (Py.nl ++ "Your hand:") ;;
          print_hand (Player.hand (player self)) ;;
          print "Bust! You went over 21." ;;
          ret (false, self)
        else player_turn fuel' self
      else if String.eqb action "s" then ret (true, self)
      else
        print "Invalid input. Please enter 'h' to hit or 's' to stand." ;;
        player_turn fuel' self
  end.

Definition determine_winner (self : t) : M string :=
  player_value <- or_ValueError (Hand.calculate_value (Player.hand (player self))) ;;
  dealer_value <- or_ValueError (Hand.calculate_value (Dealer.hand (dealer self))) ;;
  if 21 <? player_value then ret "Dealer wins! You busted."
  else if 21 <? dealer_value then ret "You win! Dealer busted."
  else if dealer_value <? player_value then ret "You win!"
  else if player_value <? dealer_value then ret "Dealer wins!"
  else ret "It's a tie!".

(** [self.player.balance += amount] *)
Definition credit (self : t) (amount : Z) : t :=
  set_player self (Player.set_balance (player self) (Player.balance (player self) + amount)).

Definition play_round (fuel : nat) (self : t) : M t :=
  bet <- Player.place_bet fuel (player self) ;;
  let self := credit self (- bet) in
  self <- deal_to_player self ;;
  self <- deal_to_dealer self ;;
  self <- deal_to_player self ;;
  self <- deal_to_dealer self ;;
  r <- player_turn fuel self ;;
  let (stand, self) := r : bool * t in
  if stand then
    print (Py.nl ++ "Dealer's turn:") ;;
    d <- Dealer.play_turn fuel (dealer self) (shoe self) ;;
    let self := set_dealer self d in
    display_hands self false ;;
    result <- determine_winner self ;;
    print (Py.nl ++ result) ;;
    if Py.contains "You win" result then
      let self := credit self (bet * 2) in
      print ("You won $" ++ Py.str (bet * 2) ++ "!") ;;
      ret self
    else if Py.contains "It's a tie" result then
      let self := credit self bet in
      print "It's a tie. Your bet is returned." ;;
      ret self
    else
      print ("You lost $" ++ Py.str bet ++ ".") ;;
      ret self
  else
    print ("You lost $" ++ Py.str bet ++ ".") ;;
    ret self.

(** The [while self.player.balance > 0:] loop of [play_table]; a [break]
    is a return of the table.  One unit of fuel per round. *)
Fixpoint play_table_loop (fuel : nat) (self : t) : M t :=
  match fuel with
  | O => out_of_fuel
  | S fuel' =>
      if 0 <? Player.balance (player self) then
        self <- play_round fuel' self ;;
        if Player.balance (player self) =? 0 then
          print (Py.nl ++ "You're out of money! Game over.") ;;
          ret self
        else
          line <- input (Py.nl ++ "Do you want to play another round? (y/n): ") ;;
          let play_again := Py.lower line in
          if negb (String.eqb play_again "y") then
            print (Py.nl ++ "Thanks for playing! You leave with $"
                   ++ Py.str (Player.balance (player self)) ++ ".") ;;
            ret self
          else
            let self := set_player self (Player.reset_hand (player self)) in
            let self := set_dealer self (Dealer.reset_hand (dealer self)) in
            play_table_loop fuel' self
      else ret self
  end.

Definition play_table (fuel : nat) (self : t) : M t :=
  print "Welcome to Blackjack!" ;;
  print "Dealer hits on 16 and stands on 17." ;;
  play_table_loop fuel self.

End Table.

(** ** The program *)

(** The process as the interpreter starts it: the class body has just set
    [Shoe.shoe = []]; nothing was printed or read. *)
Definition initial_world (rnd : nat -> nat) (lines : list string) : World :=
  mkWorld [] rnd 0 lines [].

(** [table = Table(); table.play_table()] *)
Definition main (fuel : nat) : M Table.t :=
  table <- Table.init ;;
  Table.play_table fuel table.

(** ** Vocabulary of the properties *)

(** A card as [Shoe.shuffle] builds them: its rank is one of [Shoe.ranks]. *)
Definition valid_card (c : Card) : Prop := In (rank c) Shoe.ranks.

(** The specification's card values, as a table: numeric cards at face
    value, J, Q and K at 10, an Ace at 11. *)
Definition spec_value_table : list (string * Z) :=
  [("2", 2); ("3", 3); ("4", 4); ("5", 5); ("6", 6); ("7", 7); ("8", 8);
   ("9", 9); ("10", 10); ("J", 10); ("Q", 10); ("K", 10); ("A", 11)].

Fixpoint lookup (r : string) (tbl : list (string * Z)) : Z :=
  match tbl with
  | [] => 0
  | (k, v) :: tbl' => if String.eqb r k then v else lookup r tbl'
  end.

Definition spec_card_value (c : Card) : Z := lookup (rank c) spec_value_table.

Definition is_ace (c : Card) : bool := String.eqb (rank c) "A".

(** The specification's sum of card values, every Ace at 11. *)
Fixpoint spec_total (cs : list Card) : Z :=
  match cs with
  | [] => 0
  | c :: cs' => spec_card_value c + spec_total cs'
  end.

(** The number of Aces in a hand. *)
Fixpoint spec_aces (cs : list Card) : nat :=
  match cs with
  | [] => O
  | c :: cs' => if is_ace c then S (spec_aces cs') else spec_aces cs'
  end.

(** The hard total: every Ace counted as 1. *)
Definition hard_total (cs : list Card) : Z :=
  spec_total cs - 10 * Z.of_nat (spec_aces cs).

(** [k] reductions are what the specification's rule performs on a total
    [total] with [aces] Aces: every earlier stage was above 21, and the
    rule stops because the Aces are used up or the total is at most 21. *)
Definition spec_reductions (total : Z) (aces k : nat) : Prop :=
  (k <= aces)%nat /\
  (forall j : nat, (j < k)%nat -> 21 < total - 10 * Z.of_nat j) /\
  (k = aces \/ total - 10 * Z.of_nat k <= 21).

Definition card (r : string) (s : string) : Card := mkCard r s.

(** One standard deck in the order [Shoe.shuffle] appends it: for each
    suit, every rank. *)
Definition standard_deck : list Card :=
  flat_map (fun suit => map (fun rank => mkCard rank suit) Shoe.ranks) Shoe.suits.

Fixpoint decks (n : nat) : list Card :=
  match n with
  | O => []
  | S n' => standard_deck ++ decks n'
  end.

(** [n] calls of [deal_card] in a row, with the cards they returned. *)
Fixpoint deal_cards (n : nat) (self : Shoe.t) : M (list Card) :=
  match n with
  | O => ret []
  | S n' =>
      c <- Shoe.deal_card self ;;
      cs <- deal_cards n' self ;;
      ret (c :: cs)
  end.

(** The prompt of [place_bet] at a given balance. *)
Definition bet_prompt (balance : Z) : string :=
  ("Your current balance is $" ++ Py.str balance ++ ". Place your bet: $")%string.

(** The process once [input(prompt)] has read [line], [rest] still unread. *)
Definition after_input (prompt line : string) (rest : list string) (w : World) : World :=
  log (Typed line)
      (mkWorld (Shoe_shoe w) (rand w) (rand_pos w) rest (console w ++ [Prompted prompt])).


(** The balance a returning computation leaves the player with. *)
Definition balance_after (o : Outcome Table.t) : option Z :=
  match o with
  | Ret t _ => Some (Player.balance (Table.player t))
  | _ => None
  end.

(** A table as [Table.__init__] leaves it, the shoe apart. *)
Definition fresh_table : Table.t :=
  Table.mk (Shoe.mk 6) (Player.init 100) Dealer.init.

(** A process whose shoe holds exactly the cards [x] (the last one is
    dealt first) and whose user will type [lines]. *)
Definition stacked (x : list Card) (rnd : nat -> nat) (lines : list string) : World :=
  mkWorld x rnd 0 lines [].

(** The prompt that follows a round in [play_table]. *)
Definition continue_prompt : string :=
  (Py.nl ++ "Do you want to play another round? (y/n): ")%string.

(** The table after [self.player.reset_hand(); self.dealer.reset_hand()]. *)
Definition reset_hands (self : Table.t) : Table.t :=
  Table.set_dealer
    (Table.set_player self (Player.reset_hand (Table.player self)))
    (Dealer.reset_hand (Table.dealer self)).

(** A computation only ever adds to the console history. *)
Definition grows {A} (c : M A) : Prop :=
  forall w : World,
    match c w with
    | Ret _ w' | Raise _ w' => exists tail, console w' = (console w ++ tail)%list
    | OutOfFuel => True
    end.

(** The first thing a computation does on the console is [e]. *)
Definition starts_with {A} (e : Event) (c : M A) : Prop :=
  forall w : World,
    match c w with
    | Ret _ w' | Raise _ w' => exists tail, console w' = (console w ++ e :: tail)%list
    | OutOfFuel => True
    end.

(** The prompts a console history shows, in order. *)
Fixpoint prompts (out : list Event) : list string :=
  match out with
  | [] => []
  | Prompted s :: out' => s :: prompts out'
  | _ :: out' => prompts out'
  end.

(** Of a session that returned: the final balance, the prompts it issued
    and the lines it left unread. *)
Definition session_summary (o : Outcome Table.t)
  : option (Z * list string * list string) :=
  match o with
  | Ret t w => Some (Player.balance (Table.player t), prompts (console w), stdin w)
  | _ => None
  end.

Definition hit_or_stand_prompt : string := "Do you want to hit or stand? (h/s): ".

(** * Properties *)

Open Scope list_scope.

(** Projections of an explicit world, and nothing else. *)
Ltac world_simpl :=
  cbn [set_shoe log Shoe_shoe rand rand_pos stdin console] in *.

(** ** The Python primitives on small inputs *)

Example int_examples :
  Py.int "10" = Some 10 /\ Py.int " 7 " = Some 7 /\ Py.int "-3" = Some (-3) /\
  Py.int "+4" = Some 4 /\ Py.int "1_000" = Some 1000 /\ Py.int "007" = Some 7 /\
  Py.int "abc" = None /\ Py.int "" = None /\ Py.int "1__0" = None /\
  Py.int "1.5" = None /\ Py.int "- 3" = None /\ Py.int "J" = None /\
  Py.int (String (ascii_of_nat 28) "5") = None /\
  Py.int (String (ascii_of_nat 9) "5") = Some 5 /\
  Py.is_ascii "abc" = true /\ Py.is_ascii "♠" = false.
Proof. repeat split; reflexivity. Qed.

Lemma lstrip_is_ascii (s : list ascii) :
  forallb (fun a => (nat_of_ascii a <? 128)%nat) (Py.lstrip s) = true ->
  forallb (fun a => (nat_of_ascii a <? 128)%nat) s = true.
Proof.
  induction s as [ | c s IH]; [reflexivity | ].
  cbn [Py.lstrip]. destruct (Py.is_space c) eqn:Ec; [ | exact (fun H => H)].
  intros H. cbn [forallb]. rewrite (IH H), Bool.andb_true_r.
  unfold Py.is_space in Ec. apply Nat.ltb_lt.
  apply Bool.orb_true_iff in Ec. destruct Ec as [Ec | Ec].
  - apply Bool.andb_true_iff in Ec. destruct Ec as [_ Ec].
    apply Nat.leb_le in Ec. lia.
  - apply Nat.eqb_eq in Ec. lia.
Qed.

Lemma forallb_rev {A} (f : A -> bool) (l : list A) :
  forallb f (rev l) = forallb f l.
Proof.
  induction l as [ | a l IH]; [reflexivity | ].
  cbn [rev forallb]. rewrite forallb_app, IH. cbn [forallb].
  rewrite Bool.andb_true_r. apply Bool.andb_comm.
Qed.

Lemma digits_is_ascii (s : list ascii) :
  forall (acc : Z) (after_digit : bool) (n : Z),
    Py.digits acc after_digit s = Some n ->
    forallb (fun a => (nat_of_ascii a <? 128)%nat) s = true.
Proof.
  induction s as [ | c s IH]; intros acc b n H; [reflexivity | ].
  cbn [Py.digits] in H. cbn [forallb].
  destruct (Ascii.eqb_spec c "_") as [-> | _].
  - destruct b; [ | discriminate H]. now rewrite (IH _ _ _ H).
  - unfold Py.digit_of in H.
    destruct ((48 <=? nat_of_ascii c) && (nat_of_ascii c <=? 57))%nat eqn:Ec;
      [ | discriminate H].
    rewrite (IH _ _ _ H), Bool.andb_true_r.
    apply Bool.andb_true_iff in Ec. destruct Ec as [_ Ec].
    apply Nat.leb_le in Ec. apply Nat.ltb_lt. lia.
Qed.

(** The model of [int] returns a number on strings of ASCII characters
    only. *)
Lemma int_Some_is_ascii (s : string) (n : Z) :
  Py.int s = Some n -> Py.is_ascii s = true.
Proof.
  unfold Py.int, Py.is_ascii, Py.strip. intros H.
  apply lstrip_is_ascii. rewrite <- forallb_rev. apply lstrip_is_ascii.
  rewrite <- forallb_rev.
  destruct (rev (Py.lstrip (rev (Py.lstrip (list_ascii_of_string s)))))
    as [ | c s'] eqn:E; [discriminate H | ].
  cbn [forallb].
  destruct (Ascii.eqb_spec c "-") as [-> | _].
  - destruct (Py.digits 0 false s') as [m | ] eqn:Ed; [ | discriminate H].
    now rewrite (digits_is_ascii _ _ _ _ Ed).
  - destruct (Ascii.eqb_spec c "+") as [-> | _].
    + now rewrite (digits_is_ascii _ _ _ _ H).
    + exact (digits_is_ascii _ _ _ _ H).
Qed.

Example str_examples :
  Py.str 100 = "100" /\ Py.str 0 = "0" /\ Py.str (-5) = "-5" /\
  Py.lower "Y" = "y" /\ Py.lower "Hit!" = "hit!" /\
  Py.join ", " ["a"; "b"; "c"] = "a, b, c" /\ Py.join ", " [] = "".
Proof. repeat split; reflexivity. Qed.

Example contains_examples :
  Py.contains "You win" "You win! Dealer busted." = true /\
  Py.contains "You win" "You win!" = true /\
  Py.contains "You win" "Dealer wins! You busted." = false /\
  Py.contains "You win" "Dealer wins!" = false /\
  Py.contains "You win" "It's a tie!" = false /\
  Py.contains "It's a tie" "It's a tie!" = true /\
  Py.contains "It's a tie" "Dealer wins!" = false.
Proof. repeat split; reflexivity. Qed.

Example swap_example : swap [1; 2; 3; 4]%nat 3 1 = [1; 4; 3; 2]%nat.
Proof. reflexivity. Qed.

Example random_shuffle_example :
  random_shuffle [1; 2; 3; 4]%nat (fun n => n) 0 = ([3; 4; 2; 1]%nat, 3%nat).
Proof. reflexivity. Qed.

(** ** Hand values *)

Lemma count_card_valid (v : Z) (a : nat) (c : Card) :
  valid_card c ->
  Hand.count_card v a c = Some (v + spec_card_value c, if is_ace c then S a else a).
Proof.
  destruct c as [r s]. unfold valid_card. simpl. intros H.
  repeat (destruct H as [H | H]; [subst r; reflexivity | ]).
  destruct H.
Qed.

Lemma count_cards_valid (cs : list Card) :
  Forall valid_card cs ->
  forall (v : Z) (a : nat),
    Hand.count_cards cs v a = Some (v + spec_total cs, (a + spec_aces cs)%nat).
Proof.
  induction 1 as [ | c cs Hc _ IH]; intros v a; simpl.
  - do 2 f_equal; [lia | apply plus_n_O].
  - rewrite (count_card_valid v a c Hc).
    destruct (is_ace c); rewrite IH; do 2 f_equal; lia.
Qed.

Lemma adjust_aces_S (value : Z) (aces : nat) :
  Hand.adjust_aces value (S aces) =
    if 21 <? value then Hand.adjust_aces (value - 10) aces else value.
Proof. reflexivity. Qed.

Lemma adjust_aces_reductions (aces : nat) :
  forall value : Z,
    exists k : nat,
      Hand.adjust_aces value aces = value - 10 * Z.of_nat k /\
      spec_reductions value aces k.
Proof.
  unfold spec_reductions.
  induction aces as [ | aces IH]; intros value.
  - exists O. rewrite Z.mul_0_r, Z.sub_0_r. simpl.
    destruct (21 <? value); (split; [reflexivity | ]);
      (split; [lia | split; [intros j Hj; lia | left; reflexivity]]).
  - rewrite adjust_aces_S. destruct (Z.ltb_spec 21 value) as [Hgt | Hle].
    + destruct (IH (value - 10)) as (k & Hk & Hk_le & Hall & Hstop).
      exists (S k). rewrite Hk.
      split; [lia | ]. split; [lia | ]. split.
      * intros [ | j] Hj; [lia | ].
        specialize (Hall j). lia.
      * destruct Hstop as [-> | Hstop]; [left; reflexivity | right; lia].
    + exists O.
      split; [lia | ]. split; [lia | ]. split; [intros j Hj; lia | right; lia].
Qed.

Lemma adjust_aces_no_ace (value : Z) : Hand.adjust_aces value 0 = value.
Proof. simpl. destruct (21 <? value); reflexivity. Qed.

Lemma adjust_aces_bounds (aces : nat) :
  forall value : Z,
    value - 10 * Z.of_nat aces <= Hand.adjust_aces value aces <= value.
Proof.
  intros value.
  destruct (adjust_aces_reductions aces value) as (k & -> & Hk & _).
  lia.
Qed.

Lemma calculate_value_valid (h : Hand.t) :
  Forall valid_card (Hand.cards h) ->
  Hand.calculate_value h =
    Some (Hand.adjust_aces (spec_total (Hand.cards h)) (spec_aces (Hand.cards h))).
Proof.
  intros H. unfold Hand.calculate_value.
  rewrite (count_cards_valid _ H). reflexivity.
Qed.

(** C1. On every hand of cards of the shoe's ranks, [calculate_value]
    returns the sum of the card values (numeric cards at face value, J, Q
    and K at 10, every Ace at 11) less 10 for each of [k] Aces, where [k] is
    what "subtract 10 while the total exceeds 21 and an unreduced Ace
    remains" performs.  In particular A,A,A,8 is 21; A,A,9 is 21; K,Q is 20;
    2,3,4,5,6 is 20, whatever the suits. *)
Theorem C1_calculate_value_soft_totals :
  (forall h : Hand.t,
      Forall valid_card (Hand.cards h) ->
      exists k : nat,
        Hand.calculate_value h
        = Some (spec_total (Hand.cards h) - 10 * Z.of_nat k) /\
        spec_reductions (spec_total (Hand.cards h)) (spec_aces (Hand.cards h)) k) /\
  (forall s1 s2 s3 s4,
      Hand.calculate_value
        (Hand.mk [card "A" s1; card "A" s2; card "A" s3; card "8" s4]) = Some 21) /\
  (forall s1 s2 s3,
      Hand.calculate_value (Hand.mk [card "A" s1; card "A" s2; card "9" s3]) = Some 21) /\
  (forall s1 s2,
      Hand.calculate_value (Hand.mk [card "K" s1; card "Q" s2]) = Some 20) /\
  (forall s1 s2 s3 s4 s5,
      Hand.calculate_value
        (Hand.mk [card "2" s1; card "3" s2; card "4" s3; card "5" s4; card "6" s5])
      = Some 20).
Proof.
  split; [ | repeat split; intros; reflexivity].
  intros h Hvalid.
  rewrite (calculate_value_valid h Hvalid).
  destruct (adjust_aces_reductions (spec_aces (Hand.cards h)) (spec_total (Hand.cards h)))
    as (k & Hk & Hred).
  exists k. rewrite Hk. split; [reflexivity | exact Hred].
Qed.

(** The general part of C1 at the hand A, A, 9: one reduction. *)
Lemma C1_witness :
  Forall valid_card [card "A" "♠"; card "A" "♥"; card "9" "♦"] /\
  exists k : nat,
    Hand.calculate_value (Hand.mk [card "A" "♠"; card "A" "♥"; card "9" "♦"])
    = Some (31 - 10 * Z.of_nat k) /\
    spec_reductions 31 2 k.
Proof.
  assert (Hv : Forall valid_card [card "A" "♠"; card "A" "♥"; card "9" "♦"]).
  { repeat apply Forall_cons; try apply Forall_nil; unfold valid_card; simpl; tauto. }
  split; [exact Hv | ].
  exact (proj1 C1_calculate_value_soft_totals (Hand.mk _) Hv).
Defined.

(** One pass of the loop adds to the running pair what the card alone
    contributes. *)
Lemma count_card_shift (v : Z) (a : nat) (c : Card) :
  Hand.count_card v a c =
    match Hand.count_card 0 0 c with
    | Some (dv, da) => Some (v + dv, (a + da)%nat)
    | None => None
    end.
Proof.
  unfold Hand.count_card.
  destruct (Py.mem (rank c) ["J"; "Q"; "K"]);
    [ | destruct (String.eqb (rank c) "A"); [ | destruct (Py.int (rank c)); [ | reflexivity]]];
    f_equal; f_equal; lia.
Qed.

Lemma count_cards_perm (l l' : list Card) :
  Permutation l l' ->
  forall (v : Z) (a : nat), Hand.count_cards l v a = Hand.count_cards l' v a.
Proof.
  induction 1 as [ | x l l' _ IH | x y l | l l' l'' _ IH1 _ IH2]; intros v a.
  - reflexivity.
  - simpl. destruct (Hand.count_card v a x) as [[v' a'] | ]; [apply IH | reflexivity].
  - simpl.
    rewrite (count_card_shift v a y), (count_card_shift v a x).
    destruct (Hand.count_card 0 0 y) as [[vy ay] | ] eqn:Ey;
      destruct (Hand.count_card 0 0 x) as [[vx ay'] | ] eqn:Ex;
      try rewrite (count_card_shift _ _ x), Ex;
      try rewrite (count_card_shift _ _ y), Ey;
      try reflexivity.
    f_equal; [lia | lia].
  - rewrite IH1. apply IH2.
Qed.

(** C6. Two hands holding the same cards in any order have the same
    value (or both fail on the same malformed rank): the value depends on
    the multiset of cards only. *)
Theorem C6_calculate_value_permutation (h h' : Hand.t) :
  Permutation (Hand.cards h) (Hand.cards h') ->
  Hand.calculate_value h = Hand.calculate_value h'.
Proof.
  intros Hp. unfold Hand.calculate_value.
  rewrite (count_cards_perm _ _ Hp). reflexivity.
Qed.

Lemma C6_witness :
  Permutation [card "A" "♠"; card "9" "♦"; card "A" "♥"]
              [card "9" "♦"; card "A" "♠"; card "A" "♥"] /\
  Hand.calculate_value (Hand.mk [card "A" "♠"; card "9" "♦"; card "A" "♥"])
  = Hand.calculate_value (Hand.mk [card "9" "♦"; card "A" "♠"; card "A" "♥"]).
Proof.
  assert (Hp : Permutation [card "A" "♠"; card "9" "♦"; card "A" "♥"]
                           [card "9" "♦"; card "A" "♠"; card "A" "♥"])
    by apply perm_swap.
  split; [exact Hp | ].
  exact (C6_calculate_value_permutation (Hand.mk _) (Hand.mk _) Hp).
Defined.

(** ** The shoe *)

Lemma update_length {A} (l : list A) :
  forall (i : nat) (v : A), List.length (update l i v) = List.length l.
Proof.
  induction l as [ | a l IH]; intros [ | i] v; simpl; auto.
Qed.

Lemma update_head_perm {A} (l : list A) :
  forall (j : nat) (a b : A),
    nth_error l j = Some b -> Permutation (b :: update l j a) (a :: l).
Proof.
  induction l as [ | c l IH]; intros [ | j] a b Hj; simpl in *; try discriminate.
  - injection Hj as ->. apply perm_swap.
  - rewrite perm_swap. rewrite (perm_swap c a). apply perm_skip. apply IH, Hj.
Qed.

Lemma swap_perm {A} (x : list A) : forall i j : nat, Permutation (swap x i j) x.
Proof.
  unfold swap.
  induction x as [ | a x IH]; intros i j.
  - destruct i, j; reflexivity.
  - destruct i as [ | i], j as [ | j]; simpl.
    + reflexivity.
    + destruct (nth_error x j) as [xj | ] eqn:Ej; [ | reflexivity].
      apply update_head_perm, Ej.
    + destruct (nth_error x i) as [xi | ] eqn:Ei; [ | reflexivity].
      apply update_head_perm, Ei.
    + specialize (IH i j).
      destruct (nth_error x i), (nth_error x j); try reflexivity.
      apply perm_skip, IH.
Qed.

Lemma shuffle_from_perm {A} (i : nat) :
  forall (x : list A) (rnd : nat -> nat) (pos : nat),
    Permutation (fst (shuffle_from i x rnd pos)) x.
Proof.
  induction i as [ | i IH]; intros x rnd pos.
  - reflexivity.
  - cbn [shuffle_from]. rewrite IH. apply swap_perm.
Qed.

Lemma random_shuffle_perm {A} (x : list A) (rnd : nat -> nat) (pos : nat) :
  Permutation (fst (random_shuffle x rnd pos)) x.
Proof. apply shuffle_from_perm. Qed.

Lemma standard_deck_length : List.length standard_deck = 52%nat.
Proof. reflexivity. Qed.

Lemma decks_length (n : nat) : List.length (decks n) = (52 * n)%nat.
Proof.
  induction n as [ | n IH]; [reflexivity | ].
  cbn [decks]. rewrite length_app, IH, standard_deck_length. lia.
Qed.

Lemma valid_card_mem (c : Card) :
  Py.mem (rank c) Shoe.ranks = true -> valid_card c.
Proof.
  unfold Py.mem, valid_card. intros H.
  apply existsb_exists in H. destruct H as (r & Hin & Heq).
  apply String.eqb_eq in Heq. now subst r.
Qed.

Lemma standard_deck_valid : Forall valid_card standard_deck.
Proof.
  apply Forall_forall. intros c Hc. apply valid_card_mem.
  revert c Hc. apply forallb_forall. reflexivity.
Qed.

Lemma decks_valid (n : nat) : Forall valid_card (decks n).
Proof.
  induction n as [ | n IH]; [constructor | ].
  cbn [decks]. apply Forall_app. split; [apply standard_deck_valid | exact IH].
Qed.

(** A loop whose every pass appends cards to the class list appends them
    all, and touches nothing else. *)
Lemma for_appends {A} (g : A -> list Card) (body : A -> M unit) :
  (forall (a : A) (w : World),
      body a w = Ret tt (set_shoe (Shoe_shoe w ++ g a) w)) ->
  forall (l : list A) (w : World),
    for_ l body w = Ret tt (set_shoe (Shoe_shoe w ++ flat_map g l) w).
Proof.
  intros Hbody. induction l as [ | a l IH]; intros w.
  - simpl. unfold ret, set_shoe. rewrite app_nil_r. destruct w; reflexivity.
  - simpl. unfold bind. rewrite Hbody, IH. simpl. rewrite <- app_assoc. reflexivity.
Qed.

Lemma flat_map_const {A B} (l : list A) (d : list B) :
  flat_map (fun _ => d) l = List.concat (repeat d (List.length l)).
Proof.
  induction l as [ | a l IH]; simpl; [reflexivity | now rewrite IH].
Qed.

Lemma concat_repeat_decks (n : nat) : List.concat (repeat standard_deck n) = decks n.
Proof. induction n as [ | n IH]; simpl; [reflexivity | now rewrite IH]. Qed.

Lemma range_length (n : Z) : List.length (range n) = Z.to_nat n.
Proof. unfold range. now rewrite length_map, length_seq. Qed.

(** The three nested loops of [shuffle] append [deck_count] standard
    decks to the list that is already there. *)
Lemma shuffle_appends (n : Z) (w : World) :
  for_ (range n) (fun _ =>
    for_ Shoe.suits (fun suit =>
      for_ Shoe.ranks (fun rank =>
        Shoe.append (mkCard rank suit)))) w
  = Ret tt (set_shoe (Shoe_shoe w ++ decks (Z.to_nat n)) w).
Proof.
  rewrite (for_appends (fun _ => standard_deck)).
  - now rewrite flat_map_const, range_length, concat_repeat_decks.
  - intros _ w0. unfold standard_deck.
    apply (for_appends (fun suit => map (fun rank => mkCard rank suit) Shoe.ranks)).
    intros suit w1.
    rewrite (for_appends (fun rank => [mkCard rank suit])).
    + reflexivity.
    + reflexivity.
Qed.

Lemma shuffle_spec (self : Shoe.t) (d : Z) (w : World) :
  exists (x : list Card) (pos : nat),
    Shoe.shuffle self d w = Ret tt (mkWorld x (rand w) pos (stdin w) (console w)) /\
    Permutation x (Shoe_shoe w ++ decks (Z.to_nat d)).
Proof.
  unfold Shoe.shuffle, bind. rewrite shuffle_appends.
  unfold Shoe.shuffle_shoe. simpl.
  pose proof (random_shuffle_perm (Shoe_shoe w ++ decks (Z.to_nat d)) (rand w) (rand_pos w))
    as Hp.
  destruct (random_shuffle (Shoe_shoe w ++ decks (Z.to_nat d)) (rand w) (rand_pos w))
    as [x pos].
  exists x, pos. split; [reflexivity | exact Hp].
Qed.

Lemma pop_last_app {A} (l : list A) (a : A) : Shoe.pop_last (l ++ [a]) = Some (a, l).
Proof.
  unfold Shoe.pop_last. rewrite rev_app_distr. simpl. now rewrite rev_involutive.
Qed.

Lemma pop_last_cases {A} (l : list A) :
  (l = [] /\ Shoe.pop_last l = None) \/
  (exists (x : list A) (a : A), l = x ++ [a] /\ Shoe.pop_last l = Some (a, x)).
Proof.
  destruct l as [ | b l].
  - left. split; reflexivity.
  - right. destruct (exists_last (l := b :: l)) as (x & a & E); [discriminate | ].
    exists x, a. split; [exact E | ]. rewrite E. apply pop_last_app.
Qed.

(** Dealing from a shoe that holds a card: the last card, and nothing
    else changes. *)
Lemma deal_card_nonempty (self : Shoe.t) (w : World) (x : list Card) (c : Card) :
  Shoe_shoe w = x ++ [c] ->
  Shoe.deal_card self w = Ret c (set_shoe x w).
Proof.
  intros E. unfold Shoe.deal_card, bind, Shoe.is_empty, Shoe.pop, ret.
  rewrite E, length_app, Nat.add_1_r. cbn [Nat.eqb]. cbv beta iota.
  rewrite E, pop_last_app. reflexivity.
Qed.

(** Dealing from an empty shoe: [shuffle(self.deck_count)] runs on the
    empty list, the notice is printed, then [pop] decides. *)
Lemma deal_card_empty (self : Shoe.t) (w : World) :
  Shoe_shoe w = [] ->
  exists (x : list Card) (pos : nat),
    Permutation x (decks (Z.to_nat (Shoe.deck_count self))) /\
    let w1 := log (Printed "Shoe was empty, reshuffled.")
                  (mkWorld x (rand w) pos (stdin w) (console w)) in
    Shoe.deal_card self w =
      match Shoe.pop_last x with
      | Some (c, x') => Ret c (set_shoe x' w1)
      | None => Raise Py.IndexError w1
      end.
Proof.
  intros E.
  destruct (shuffle_spec self (Shoe.deck_count self) w) as (x & pos & Hs & Hp).
  rewrite E in Hp. simpl in Hp.
  exists x, pos. split; [exact Hp | ].
  unfold Shoe.deal_card, bind, Shoe.is_empty. rewrite E. simpl.
  unfold bind. rewrite Hs. unfold print, Shoe.pop. simpl.
  destruct (Shoe.pop_last x) as [[c x'] | ]; reflexivity.
Qed.

Lemma decks_nonempty (n : nat) : (0 < n)%nat -> decks n <> [].
Proof.
  intros Hn E. apply (f_equal (@List.length Card)) in E.
  rewrite decks_length in E. simpl in E. lia.
Qed.

(** With at least one deck configured, [deal_card] returns a card from
    every state; the shoe shrinks by one card, or is refilled first. *)
Lemma deal_card_returns (self : Shoe.t) (w : World) :
  1 <= Shoe.deck_count self ->
  exists (c : Card) (w' : World),
    Shoe.deal_card self w = Ret c w' /\
    stdin w' = stdin w /\
    (Forall valid_card (Shoe_shoe w) -> valid_card c /\ Forall valid_card (Shoe_shoe w')).
Proof.
  intros Hd.
  destruct (pop_last_cases (Shoe_shoe w)) as [[E _] | (x & c & E & _)].
  - destruct (deal_card_empty self w E) as (y & pos & Hp & Hdeal).
    cbv zeta in Hdeal. rewrite Hdeal.
    destruct (pop_last_cases y) as [[Ey _] | (y' & c & Ey & Hpop)].
    + exfalso. subst y. apply Permutation_nil in Hp.
      revert Hp. apply decks_nonempty. lia.
    + rewrite Hpop. eexists _, _. split; [reflexivity | ]. split; [reflexivity | ].
      intros _.
      assert (Hv : Forall valid_card (y' ++ [c])).
      { rewrite <- Ey. eapply Permutation_Forall; [symmetry; exact Hp | ].
        apply decks_valid. }
      apply Forall_app in Hv. destruct Hv as [Hy' Hc].
      split; [now inversion Hc | exact Hy'].
  - rewrite (deal_card_nonempty self w x c E).
    eexists _, _. split; [reflexivity | ]. split; [reflexivity | ].
    intros Hv. rewrite E in Hv. apply Forall_app in Hv. destruct Hv as [Hx Hc].
    split; [now inversion Hc | exact Hx].
Qed.

(** [Shoe(deck_count)]: the new decks join whatever the class list holds. *)
Lemma init_spec (d : Z) (w : World) :
  exists (x : list Card) (pos : nat),
    Shoe.init d w = Ret (Shoe.mk d) (mkWorld x (rand w) pos (stdin w) (console w)) /\
    Permutation x (Shoe_shoe w ++ decks (Z.to_nat d)).
Proof.
  destruct (shuffle_spec (Shoe.mk d) d w) as (x & pos & Hs & Hp).
  exists x, pos. split; [ | exact Hp].
  unfold Shoe.init, bind. rewrite Hs. reflexivity.
Qed.

(** [n] deals from a shoe that holds at least [n] cards take its last
    [n] cards, last first, and touch nothing else. *)
Lemma deal_cards_spec (self : Shoe.t) (n : nat) :
  forall w : World,
    (n <= List.length (Shoe_shoe w))%nat ->
    exists (cs x : list Card),
      deal_cards n self w = Ret cs (set_shoe x w) /\
      Shoe_shoe w = x ++ rev cs /\
      List.length cs = n.
Proof.
  induction n as [ | n IH]; intros w Hn.
  - exists [], (Shoe_shoe w). simpl. rewrite app_nil_r.
    split; [ | split; reflexivity]. unfold ret, set_shoe. destruct w; reflexivity.
  - destruct (pop_last_cases (Shoe_shoe w)) as [[E _] | (x & c & E & _)].
    + rewrite E in Hn. simpl in Hn. lia.
    + destruct (IH (set_shoe x w)) as (cs & y & Hdeal & Hy & Hlen).
      { simpl. rewrite E, length_app in Hn. simpl in Hn. lia. }
      exists (c :: cs), y. simpl in Hy.
      split; [ | split].
      * cbn [deal_cards]. unfold bind at 1.
        rewrite (deal_card_nonempty self w x c E).
        unfold bind. rewrite Hdeal. reflexivity.
      * rewrite E, Hy. simpl. now rewrite app_assoc.
      * simpl. now rewrite Hlen.
Qed.

(** C5, with its condition made explicit.  A shoe of one deck, built
    while the class list is empty as it is when the program starts (not a
    second shoe of the same process, see [C5_counterexample]), holds exactly
    52 cards (the standard deck in
    some order).  A deal from a shoe that holds a card removes exactly
    one card; [n] deals leave [52 - n] cards, so 52 deals leave none.  The
    53rd deal returns a card without raising: it prints the reshuffle
    notice, refills the shoe with one deck and leaves 51 cards. *)
Theorem C5_one_deck_shoe (rnd : nat -> nat) (pos : nat) (lines : list string)
    (out : list Event) :
  exists w1 : World,
    Shoe.init 1 (mkWorld [] rnd pos lines out) = Ret (Shoe.mk 1) w1 /\
    List.length (Shoe_shoe w1) = 52%nat /\
    Permutation (Shoe_shoe w1) standard_deck /\
    (forall (self : Shoe.t) (w : World),
        Shoe_shoe w <> [] ->
        exists (c : Card) (w' : World),
          Shoe.deal_card self w = Ret c w' /\
          S (List.length (Shoe_shoe w')) = List.length (Shoe_shoe w) /\
          console w' = console w) /\
    (forall n : nat,
        (n <= 52)%nat ->
        exists (cs : list Card) (w2 : World),
          deal_cards n (Shoe.mk 1) w1 = Ret cs w2 /\
          List.length cs = n /\
          List.length (Shoe_shoe w2) = (52 - n)%nat /\
          console w2 = console w1) /\
    exists (cs : list Card) (w2 : World),
      deal_cards 52 (Shoe.mk 1) w1 = Ret cs w2 /\
      Shoe_shoe w2 = [] /\
      Permutation cs standard_deck /\
      exists (c : Card) (w3 : World),
        Shoe.deal_card (Shoe.mk 1) w2 = Ret c w3 /\
        List.length (Shoe_shoe w3) = 51%nat /\
        Permutation (Shoe_shoe w3 ++ [c]) standard_deck /\
        console w3 = console w2 ++ [Printed "Shoe was empty, reshuffled."].
Proof.
  destruct (init_spec 1 (mkWorld [] rnd pos lines out)) as (x & pos1 & Hinit & Hp).
  cbn [rand stdin console Shoe_shoe] in Hinit, Hp.
  change (Permutation x standard_deck) in Hp.
  assert (Hlen : List.length x = 52%nat).
  { rewrite (Permutation_length Hp). reflexivity. }
  eexists. split; [exact Hinit | ]. simpl Shoe_shoe.
  split; [exact Hlen | ]. split; [exact Hp | ].
  split; [ | split].
  - intros self w Hne.
    destruct (pop_last_cases (Shoe_shoe w)) as [[E _] | (y & c & E & _)];
      [contradiction | ].
    exists c, (set_shoe y w). rewrite (deal_card_nonempty self w y c E).
    split; [reflexivity | ]. split; [ | reflexivity].
    rewrite E, length_app. simpl. lia.
  - intros n Hn.
    destruct (deal_cards_spec (Shoe.mk 1) n (mkWorld x rnd pos1 lines out))
      as (cs & y & Hdeal & Hy & Hcs).
    { world_simpl. lia. }
    exists cs, (set_shoe y (mkWorld x rnd pos1 lines out)).
    split; [exact Hdeal | ]. split; [exact Hcs | ]. split; [ | reflexivity].
    world_simpl. apply (f_equal (@List.length Card)) in Hy.
    rewrite length_app, length_rev in Hy. lia.
  - destruct (deal_cards_spec (Shoe.mk 1) 52 (mkWorld x rnd pos1 lines out))
      as (cs & y & Hdeal & Hy & Hcs).
    { world_simpl. lia. }
    world_simpl.
    assert (Ey : y = []).
    { apply length_zero_iff_nil. apply (f_equal (@List.length Card)) in Hy.
      rewrite length_app, length_rev in Hy. lia. }
    subst y. simpl in Hy.
    exists cs, (set_shoe [] (mkWorld x rnd pos1 lines out)).
    split; [exact Hdeal | ]. split; [reflexivity | ].
    split.
    { rewrite <- Hp, Hy. apply Permutation_rev. }
    destruct (deal_card_empty (Shoe.mk 1) (set_shoe [] (mkWorld x rnd pos1 lines out)))
      as (z & pos2 & Hz & Hd); [reflexivity | ].
    cbv zeta in Hd. change (Permutation z standard_deck) in Hz.
    destruct (pop_last_cases z) as [[Ez _] | (z' & c & Ez & Hpop)].
    + subst z. apply Permutation_nil in Hz. discriminate Hz.
    + rewrite Hpop in Hd. eexists _, _. split; [exact Hd | ].
      cbn [set_shoe log Shoe_shoe console rand stdin rand_pos].
      split; [ | split; [ | reflexivity]].
      * apply Permutation_length in Hz. rewrite Ez, length_app in Hz.
        simpl in Hz. change (List.length standard_deck) with 52%nat in Hz. lia.
      * rewrite <- Ez. exact Hz.
Qed.

(** The statement of C5 without the condition on the class list fails:
    a second [Shoe(1)] built in the same process, right after the first,
    holds 104 cards, not 52. *)
Lemma C5_counterexample :
  exists w1 w2 : World,
    Shoe.init 1 (initial_world (fun n => n) []) = Ret (Shoe.mk 1) w1 /\
    Shoe.init 1 w1 = Ret (Shoe.mk 1) w2 /\
    List.length (Shoe_shoe w2) = 104%nat /\
    List.length (Shoe_shoe w2) <> 52%nat.
Proof.
  destruct (init_spec 1 (initial_world (fun n => n) [])) as (x & pos & E1 & Hx).
  destruct (init_spec 1 (mkWorld x (rand (initial_world (fun n => n) [])) pos
                           (stdin (initial_world (fun n => n) []))
                           (console (initial_world (fun n => n) []))))
    as (y & pos' & E2 & Hy).
  world_simpl.
  assert (Hlen : List.length y = 104%nat).
  { rewrite (Permutation_length Hy), length_app, (Permutation_length Hx), length_app.
    change (Z.to_nat 1) with 1%nat. rewrite decks_length. reflexivity. }
  eexists _, _. split; [exact E1 | ]. split; [exact E2 | ]. world_simpl.
  split; [exact Hlen | ]. rewrite Hlen. discriminate.
Qed.

(** C8. The card list belongs to the class, so every instance reads and
    writes the same one: (1) what one instance sees another sees;
    (2) constructing a shoe of [d] decks appends [52 * d] cards to the cards
    already in the list, whoever put them there; (3) a first shoe of one
    deck, one card dealt, then a second shoe of one deck: the list holds
    103 cards, not a multiple of 52, and a card dealt through the first
    instance is gone for the second; (4) with a single instance, started
    on the empty list, every shuffle runs on an empty list (at
    construction, and in [deal_card] only when the list is empty) and
    leaves exactly [52 * d] cards. *)
Theorem C8_shoe_list_is_shared :
  (forall (s1 s2 : Shoe.t) (w : World), Shoe.is_empty s1 w = Shoe.is_empty s2 w) /\
  (forall (d : Z) (w : World),
      exists w' : World,
        Shoe.init d w = Ret (Shoe.mk d) w' /\
        Permutation (Shoe_shoe w') (Shoe_shoe w ++ decks (Z.to_nat d)) /\
        List.length (Shoe_shoe w')
        = (List.length (Shoe_shoe w) + 52 * Z.to_nat d)%nat) /\
  (forall (rnd : nat -> nat) (lines : list string),
      exists (c : Card) (w' : World),
        (s1 <- Shoe.init 1 ;; c <- Shoe.deal_card s1 ;; _ <- Shoe.init 1 ;; ret c)
          (initial_world rnd lines) = Ret c w' /\
        List.length (Shoe_shoe w') = 103%nat /\
        (103 mod 52 <> 0)%nat /\
        exists (c' : Card) (w'' : World),
          Shoe.deal_card (Shoe.mk 1) w' = Ret c' w'' /\
          forall s2 : Shoe.t,
            exists (c'' : Card) (x : list Card),
              Shoe.deal_card s2 w'' = Ret c'' (set_shoe x w'') /\
              List.length x = 101%nat) /\
  (forall (self : Shoe.t) (d : Z) (w : World),
      Shoe_shoe w = [] ->
      exists w' : World,
        Shoe.shuffle self d w = Ret tt w' /\
        Permutation (Shoe_shoe w') (decks (Z.to_nat d)) /\
        List.length (Shoe_shoe w') = (52 * Z.to_nat d)%nat).
Proof.
  split; [reflexivity | ]. split; [ | split].
  - intros d w. destruct (init_spec d w) as (x & pos & Hinit & Hp).
    eexists. split; [exact Hinit | ]. world_simpl. split; [exact Hp | ].
    now rewrite (Permutation_length Hp), length_app, decks_length.
  - intros rnd lines. unfold bind.
    destruct (init_spec 1 (initial_world rnd lines)) as (x & pos & -> & Hp).
    unfold initial_world in *. world_simpl.
    change (Permutation x standard_deck) in Hp.
    destruct (pop_last_cases x) as [[E _] | (x' & c & E & _)].
    { subst x. apply Permutation_nil in Hp. discriminate Hp. }
    rewrite (deal_card_nonempty (Shoe.mk 1) (mkWorld x rnd pos lines []) x' c E).
    destruct (init_spec 1 (set_shoe x' (mkWorld x rnd pos lines [])))
      as (y & pos' & -> & Hy).
    world_simpl. change (Permutation y (x' ++ standard_deck)) in Hy.
    assert (Hx' : List.length x' = 51%nat).
    { apply Permutation_length in Hp. rewrite E, length_app in Hp.
      change (List.length standard_deck) with 52%nat in Hp. simpl in Hp. lia. }
    assert (Hlen : List.length y = 103%nat).
    { rewrite (Permutation_length Hy), length_app, Hx'. reflexivity. }
    exists c. eexists. split; [reflexivity | ]. world_simpl.
    split; [exact Hlen | ]. split; [discriminate | ].
    destruct (pop_last_cases y) as [[Ey _] | (y' & c' & Ey & _)].
    { subst y. discriminate Hlen. }
    rewrite (deal_card_nonempty (Shoe.mk 1) (mkWorld y rnd pos' lines []) y' c' Ey).
    eexists _, _. split; [reflexivity | ]. intros s2.
    assert (Hy' : List.length y' = 102%nat).
    { rewrite Ey, length_app in Hlen. simpl in Hlen. lia. }
    destruct (pop_last_cases y') as [[Ez _] | (z & c'' & Ez & _)].
    { subst y'. discriminate Hy'. }
    exists c'', z. split.
    + apply deal_card_nonempty. exact Ez.
    + rewrite Ez, length_app in Hy'. simpl in Hy'. lia.
  - intros self d w E.
    destruct (shuffle_spec self d w) as (x & pos & Hs & Hp).
    rewrite E in Hp. change ([] ++ decks (Z.to_nat d)) with (decks (Z.to_nat d)) in Hp.
    eexists. split; [exact Hs | ]. world_simpl. split; [exact Hp | ].
    now rewrite (Permutation_length Hp), decks_length.
Qed.

(** The last part of C8 at a single one-deck shoe on the empty list. *)
Lemma C8_witness :
  Shoe_shoe (initial_world (fun n => n) []) = [] /\
  exists w' : World,
    Shoe.shuffle (Shoe.mk 1) 1 (initial_world (fun n => n) []) = Ret tt w' /\
    Permutation (Shoe_shoe w') (decks (Z.to_nat 1)) /\
    List.length (Shoe_shoe w') = (52 * Z.to_nat 1)%nat.
Proof.
  split; [reflexivity | ].
  apply (proj2 (proj2 (proj2 C8_shoe_list_is_shared))). reflexivity.
Defined.

(** C10. With [deck_count >= 1], [deal_card] returns a card from every
    state: after an automatic reshuffle the list is not empty.  A shoe built
    with [deck_count = 0] (or less) on the empty list stays empty, because
    its shuffle appends nothing, and its first [deal_card] prints the
    reshuffle notice and then raises [IndexError] from [pop]. *)
Theorem C10_deal_card_needs_a_deck :
  (forall (self : Shoe.t) (w : World),
      1 <= Shoe.deck_count self ->
      exists (c : Card) (w' : World), Shoe.deal_card self w = Ret c w') /\
  (forall (d : Z) (rnd : nat -> nat) (pos : nat) (lines : list string)
          (out : list Event),
      d <= 0 ->
      exists w1 w2 : World,
        Shoe.init d (mkWorld [] rnd pos lines out) = Ret (Shoe.mk d) w1 /\
        Shoe_shoe w1 = [] /\
        Shoe.deal_card (Shoe.mk d) w1 = Raise Py.IndexError w2 /\
        console w2 = out ++ [Printed "Shoe was empty, reshuffled."]) /\
  (forall (rnd : nat -> nat) (lines : list string),
      exists w2 : World,
        (s <- Shoe.init 0 ;; Shoe.deal_card s) (initial_world rnd lines)
        = Raise Py.IndexError w2).
Proof.
  assert (Hzero : forall (d : Z) (rnd : nat -> nat) (pos : nat) (lines : list string)
                         (out : list Event),
             d <= 0 ->
             exists w1 w2 : World,
               Shoe.init d (mkWorld [] rnd pos lines out) = Ret (Shoe.mk d) w1 /\
               Shoe_shoe w1 = [] /\
               Shoe.deal_card (Shoe.mk d) w1 = Raise Py.IndexError w2 /\
               console w2 = out ++ [Printed "Shoe was empty, reshuffled."]).
  { intros d rnd pos lines out Hd.
    assert (Hn : Z.to_nat d = 0%nat) by lia.
    destruct (init_spec d (mkWorld [] rnd pos lines out)) as (x & pos1 & Hinit & Hp).
    world_simpl. rewrite Hn in Hp. apply Permutation_sym, Permutation_nil in Hp. subst x.
    destruct (deal_card_empty (Shoe.mk d) (mkWorld [] rnd pos1 lines out))
      as (y & pos2 & Hy & Hdeal); [reflexivity | ].
    cbn [Shoe.deck_count] in Hy. rewrite Hn in Hy.
    apply Permutation_sym, Permutation_nil in Hy. subst y.
    cbv zeta in Hdeal. world_simpl.
    eexists _, _. split; [exact Hinit | ]. split; [reflexivity | ].
    split; [exact Hdeal | reflexivity]. }
  split; [ | split; [exact Hzero | ]].
  - intros self w Hd.
    destruct (deal_card_returns self w Hd) as (c & w' & Hdeal & _).
    exists c, w'. exact Hdeal.
  - intros rnd lines.
    destruct (Hzero 0 rnd 0%nat lines []) as (w1 & w2 & Hinit & _ & Hdeal & _); [lia | ].
    exists w2. unfold bind, initial_world. rewrite Hinit. exact Hdeal.
Qed.

Lemma C10_witness :
  1 <= Shoe.deck_count (Shoe.mk 6) /\
  exists (c : Card) (w' : World),
    Shoe.deal_card (Shoe.mk 6) (initial_world (fun n => n) []) = Ret c w'.
Proof.
  split; [discriminate | ].
  apply (proj1 C10_deal_card_needs_a_deck). discriminate.
Defined.

(** Whatever the deck count, a deal from a shoe of valid cards returns a
    valid card and leaves valid cards, or raises [IndexError] (a shoe
    without decks found empty). *)
Lemma deal_card_cases (self : Shoe.t) (w : World) :
  Forall valid_card (Shoe_shoe w) ->
  (exists (c : Card) (w' : World),
      Shoe.deal_card self w = Ret c w' /\
      valid_card c /\ Forall valid_card (Shoe_shoe w')) \/
  (Shoe.deck_count self <= 0 /\
   exists w' : World, Shoe.deal_card self w = Raise Py.IndexError w').
Proof.
  intros Hv.
  destruct (Z_le_gt_dec 1 (Shoe.deck_count self)) as [Hd | Hd].
  - left. destruct (deal_card_returns self w Hd) as (c & w' & Hdeal & _ & Hvalid).
    exists c, w'. split; [exact Hdeal | exact (Hvalid Hv)].
  - destruct (pop_last_cases (Shoe_shoe w)) as [[E _] | (x & c & E & _)].
    + right. split; [lia | ].
      destruct (deal_card_empty self w E) as (y & pos & Hy & Hdeal).
      replace (Z.to_nat (Shoe.deck_count self)) with 0%nat in Hy by lia.
      apply Permutation_sym, Permutation_nil in Hy. subst y.
      eexists. exact Hdeal.
    + left. exists c, (set_shoe x w).
      split; [apply deal_card_nonempty, E | ].
      rewrite E in Hv. apply Forall_app in Hv. destruct Hv as [Hx Hc].
      split; [now inversion Hc | exact Hx].
Qed.

(** ** The dealer *)

Lemma play_turn_S (fuel : nat) (self : Dealer.t) (shoe : Shoe.t) (w : World) :
  Dealer.play_turn (S fuel) self shoe w =
    match Hand.calculate_value (Dealer.hand self) with
    | Some v =>
        if v <? 17 then
          (card <- Shoe.deal_card shoe ;;
           Dealer.play_turn fuel (Dealer.mk (Hand.add_card (Dealer.hand self) card)) shoe) w
        else Ret self w
    | None => Raise Py.ValueError w
    end.
Proof.
  cbn [Dealer.play_turn]. unfold bind at 1.
  destruct (Hand.calculate_value (Dealer.hand self)) as [v | ];
    cbn [or_ValueError]; unfold ret, raise; [destruct (v <? 17) | ]; reflexivity.
Qed.

(** What a returning [play_turn] did: some number of [deal_card] calls,
    each made at a value below 17, the cards appended to the hand in the
    order drawn, and a final value of 17 or more. *)
Lemma play_turn_returns (fuel : nat) (shoe : Shoe.t) :
  forall (self d : Dealer.t) (w w' : World),
    Dealer.play_turn fuel self shoe w = Ret d w' ->
    exists drawn : list Card,
      deal_cards (List.length drawn) shoe w = Ret drawn w' /\
      Hand.cards (Dealer.hand d) = Hand.cards (Dealer.hand self) ++ drawn /\
      (forall k : nat,
          (k < List.length drawn)%nat ->
          exists v : Z,
            Hand.calculate_value
              (Hand.mk (Hand.cards (Dealer.hand self) ++ firstn k drawn)) = Some v /\
            v < 17) /\
      exists v : Z, Hand.calculate_value (Dealer.hand d) = Some v /\ 17 <= v.
Proof.
  induction fuel as [ | fuel IH]; intros self d w w' Hrun; [discriminate Hrun | ].
  rewrite play_turn_S in Hrun.
  destruct (Hand.calculate_value (Dealer.hand self)) as [v | ] eqn:Ev;
    [ | discriminate Hrun].
  destruct (Z.ltb_spec v 17) as [Hlt | Hge].
  - unfold bind in Hrun.
    destruct (Shoe.deal_card shoe w) as [c w1 | | ] eqn:Edeal; try discriminate Hrun.
    destruct (IH _ _ _ _ Hrun) as (drawn & Hdeals & Hcards & Hbelow & Hfinal).
    exists (c :: drawn). cbn [Dealer.hand Hand.add_card Hand.cards] in Hcards, Hbelow.
    split; [ | split; [ | split]].
    + cbn [List.length deal_cards]. unfold bind. rewrite Edeal, Hdeals. reflexivity.
    + rewrite Hcards, <- app_assoc. reflexivity.
    + intros [ | k] Hk.
      * exists v. split; [ | exact Hlt].
        cbn [firstn]. rewrite app_nil_r. destruct self as [[cs]]. exact Ev.
      * destruct (Hbelow k) as (vk & Hvk & Hvk17); [simpl in Hk; lia | ].
        exists vk. split; [ | exact Hvk17].
        cbn [firstn]. rewrite <- Hvk. f_equal. f_equal.
        rewrite <- app_assoc. reflexivity.
    + exact Hfinal.
  - injection Hrun as <- <-.
    exists []. split; [reflexivity | ]. split; [now rewrite app_nil_r | ].
    split; [intros k Hk; inversion Hk | ].
    exists v. split; [exact Ev | exact Hge].
Qed.

(** C4. [play_turn] stands at once on any value of 17 or more: it returns
    the dealer and the process state untouched, no card drawn.  Below 17
    it deals one card into the hand and tests again.  When it returns, it
    has drawn exactly the cards of consecutive [deal_card] calls, each at a
    hand value below 17, and the final hand value is at least 17. *)
Theorem C4_dealer_draws_below_17 :
  (forall (fuel : nat) (self : Dealer.t) (shoe : Shoe.t) (w : World) (v : Z),
      Hand.calculate_value (Dealer.hand self) = Some v ->
      17 <= v ->
      Dealer.play_turn (S fuel) self shoe w = Ret self w) /\
  (forall (fuel : nat) (self : Dealer.t) (shoe : Shoe.t) (w : World) (v : Z),
      Hand.calculate_value (Dealer.hand self) = Some v ->
      v < 17 ->
      Dealer.play_turn (S fuel) self shoe w =
        (card <- Shoe.deal_card shoe ;;
         Dealer.play_turn fuel (Dealer.mk (Hand.add_card (Dealer.hand self) card)) shoe) w) /\
  (forall (fuel : nat) (shoe : Shoe.t) (self d : Dealer.t) (w w' : World),
      Dealer.play_turn fuel self shoe w = Ret d w' ->
      exists drawn : list Card,
        deal_cards (List.length drawn) shoe w = Ret drawn w' /\
        Hand.cards (Dealer.hand d) = Hand.cards (Dealer.hand self) ++ drawn /\
        (forall k : nat,
            (k < List.length drawn)%nat ->
            exists v : Z,
              Hand.calculate_value
                (Hand.mk (Hand.cards (Dealer.hand self) ++ firstn k drawn)) = Some v /\
              v < 17) /\
        exists v : Z, Hand.calculate_value (Dealer.hand d) = Some v /\ 17 <= v).
Proof.
  split; [ | split].
  - intros fuel self shoe w v Ev Hv. rewrite play_turn_S, Ev.
    destruct (Z.ltb_spec v 17); [lia | reflexivity].
  - intros fuel self shoe w v Ev Hv. rewrite play_turn_S, Ev.
    destruct (Z.ltb_spec v 17); [reflexivity | lia].
  - exact play_turn_returns.
Qed.

Lemma spec_total_app (cs cs' : list Card) :
  spec_total (cs ++ cs') = spec_total cs + spec_total cs'.
Proof. induction cs as [ | c cs IH]; simpl; [reflexivity | rewrite IH; lia]. Qed.

Lemma spec_aces_app (cs cs' : list Card) :
  spec_aces (cs ++ cs') = (spec_aces cs + spec_aces cs')%nat.
Proof.
  induction cs as [ | c cs IH]; simpl; [reflexivity | ].
  destruct (is_ace c); rewrite IH; reflexivity.
Qed.

(** A card of the shoe's ranks counts for at least 1 with its Ace at 1. *)
Lemma hard_card_positive (c : Card) :
  valid_card c -> 1 <= hard_total [c].
Proof.
  destruct c as [r s]. unfold valid_card. simpl. intros H.
  repeat (destruct H as [H | H]; [subst r; vm_compute; discriminate | ]).
  destruct H.
Qed.

Lemma hard_total_app (cs cs' : list Card) :
  hard_total (cs ++ cs') = hard_total cs + hard_total cs'.
Proof. unfold hard_total. rewrite spec_total_app, spec_aces_app. lia. Qed.

Lemma hard_total_nonneg (cs : list Card) :
  Forall valid_card cs -> 0 <= hard_total cs.
Proof.
  induction 1 as [ | c cs Hc _ IH]; [discriminate | ].
  change (c :: cs) with ([c] ++ cs). rewrite hard_total_app.
  pose proof (hard_card_positive c Hc). lia.
Qed.

(** The value of a hand is never below its hard total. *)
Lemma value_above_hard_total (h : Hand.t) (v : Z) :
  Forall valid_card (Hand.cards h) ->
  Hand.calculate_value h = Some v ->
  hard_total (Hand.cards h) <= v.
Proof.
  intros Hv Ev. rewrite (calculate_value_valid h Hv) in Ev. injection Ev as <-.
  apply adjust_aces_bounds.
Qed.

(** The loop of [play_turn] on valid cards makes at most [n] draws when
    the hard total is within [n] of 17: it returns, or, with a shoe that
    has no deck to refill from, [deal_card] raises. *)
Lemma play_turn_bounded (shoe : Shoe.t) (n : nat) :
  forall (fuel : nat) (self : Dealer.t) (w : World),
    Forall valid_card (Shoe_shoe w) ->
    Forall valid_card (Hand.cards (Dealer.hand self)) ->
    17 - hard_total (Hand.cards (Dealer.hand self)) <= Z.of_nat n ->
    (n < fuel)%nat ->
    (exists (d : Dealer.t) (w' : World) (drawn : list Card),
        Dealer.play_turn fuel self shoe w = Ret d w' /\
        Hand.cards (Dealer.hand d) = Hand.cards (Dealer.hand self) ++ drawn /\
        (List.length drawn <= n)%nat) \/
    (Shoe.deck_count shoe <= 0 /\
     exists w' : World, Dealer.play_turn fuel self shoe w = Raise Py.IndexError w').
Proof.
  induction n as [ | n IH]; intros fuel self w Hshoe Hhand Hhard Hfuel;
    (destruct fuel as [ | fuel]; [lia | ]);
    rewrite play_turn_S;
    rewrite (calculate_value_valid _ Hhand);
    pose proof (value_above_hard_total _ _ Hhand (calculate_value_valid _ Hhand)) as Hge;
    destruct (Z.ltb_spec
                (Hand.adjust_aces (spec_total (Hand.cards (Dealer.hand self)))
                                  (spec_aces (Hand.cards (Dealer.hand self)))) 17)
      as [Hlt | _];
    try (left; exists self, w, []; rewrite app_nil_r;
         split; [reflexivity | split; [reflexivity | simpl; lia]]).
  - lia.
  - unfold bind.
    destruct (deal_card_cases shoe w Hshoe)
      as [(c & w1 & -> & Hc & Hshoe1) | (Hd & w1 & ->)];
      [ | right; split; [exact Hd | exists w1; reflexivity]].
    destruct (IH fuel (Dealer.mk (Hand.add_card (Dealer.hand self) c)) w1)
      as [(d & w' & drawn & Hrun & Hcards & Hlen) | (Hd & w' & Hrun)].
    + exact Hshoe1.
    + cbn [Dealer.hand Hand.add_card Hand.cards]. apply Forall_app.
      split; [exact Hhand | now constructor].
    + cbn [Dealer.hand Hand.add_card Hand.cards]. rewrite hard_total_app.
      pose proof (hard_card_positive c Hc). lia.
    + lia.
    + left. exists d, w', (c :: drawn). split; [exact Hrun | ].
      cbn [Dealer.hand Hand.add_card Hand.cards] in Hcards.
      split; [rewrite Hcards, <- app_assoc; reflexivity | simpl; lia].
    + right. split; [exact Hd | exists w'; exact Hrun].
Qed.

(** C9. On cards of the shoe's ranks, every card added to a hand raises
    its hard total (Aces at 1) by at least 1, and the value [play_turn]
    tests is never below the hard total.  So with at least one deck
    configured (every [deal_card] returns a card) the loop returns after at
    most 17 draws: 18 evaluations of its test suffice, whatever the hand
    and the shoe it starts from.  Without that assumption the loop still
    stops within the same bound, by returning or by the exception of
    [deal_card]. *)
Theorem C9_dealer_turn_terminates :
  (forall (cs : list Card) (c : Card),
      valid_card c -> hard_total cs + 1 <= hard_total (cs ++ [c])) /\
  (forall (h : Hand.t) (v : Z),
      Forall valid_card (Hand.cards h) ->
      Hand.calculate_value h = Some v ->
      hard_total (Hand.cards h) <= v) /\
  (forall (fuel : nat) (self : Dealer.t) (shoe : Shoe.t) (w : World),
      1 <= Shoe.deck_count shoe ->
      Forall valid_card (Shoe_shoe w) ->
      Forall valid_card (Hand.cards (Dealer.hand self)) ->
      (18 <= fuel)%nat ->
      exists (d : Dealer.t) (w' : World) (drawn : list Card),
        Dealer.play_turn fuel self shoe w = Ret d w' /\
        Hand.cards (Dealer.hand d) = Hand.cards (Dealer.hand self) ++ drawn /\
        (List.length drawn <= 17)%nat /\
        deal_cards (List.length drawn) shoe w = Ret drawn w') /\
  (forall (fuel : nat) (self : Dealer.t) (shoe : Shoe.t) (w : World),
      Forall valid_card (Shoe_shoe w) ->
      Forall valid_card (Hand.cards (Dealer.hand self)) ->
      (18 <= fuel)%nat ->
      Dealer.play_turn fuel self shoe w <> OutOfFuel).
Proof.
  split; [ | split; [ | split]].
  - intros cs c Hc. rewrite hard_total_app.
    pose proof (hard_card_positive c Hc). lia.
  - exact value_above_hard_total.
  - intros fuel self shoe w Hd Hshoe Hhand Hfuel.
    destruct (play_turn_bounded shoe 17 fuel self w Hshoe Hhand)
      as [(d & w' & drawn & Hrun & Hcards & Hlen) | (Hd0 & _)]; [ | lia | | lia].
    + pose proof (hard_total_nonneg _ Hhand). lia.
    + exists d, w', drawn. split; [exact Hrun | ]. split; [exact Hcards | ].
      split; [exact Hlen | ].
      destruct (play_turn_returns fuel shoe self d w w' Hrun)
        as (drawn' & Hdeals & Hcards' & _).
      rewrite Hcards in Hcards'. apply app_inv_head in Hcards'. subst drawn'.
      exact Hdeals.
  - intros fuel self shoe w Hshoe Hhand Hfuel.
    destruct (play_turn_bounded shoe 17 fuel self w Hshoe Hhand)
      as [(d & w' & drawn & -> & _) | (_ & w' & ->)]; try discriminate; try lia.
    pose proof (hard_total_nonneg _ Hhand). lia.
Qed.

(** C9 at the program's own start: six decks, the dealer's hand empty. *)
Lemma C9_witness :
  exists (d : Dealer.t) (w' : World) (drawn : list Card),
    Dealer.play_turn 18 Dealer.init (Shoe.mk 6) (initial_world (fun n => n) [])
    = Ret d w' /\
    Hand.cards (Dealer.hand d) = Hand.cards (Dealer.hand Dealer.init) ++ drawn /\
    (List.length drawn <= 17)%nat /\
    deal_cards (List.length drawn) (Shoe.mk 6) (initial_world (fun n => n) [])
    = Ret drawn w'.
Proof.
  apply (proj1 (proj2 (proj2 C9_dealer_turn_terminates))).
  - discriminate.
  - constructor.
  - constructor.
  - apply Nat.le_refl.
Defined.

(** ** Console input *)

Lemma input_spec (prompt : string) (w : World) :
  input prompt w =
    match stdin w with
    | line :: rest => Ret line (after_input prompt line rest w)
    | [] => Raise Py.EOFError (log (Prompted prompt) w)
    end.
Proof. unfold input. cbn [log stdin]. destruct (stdin w); reflexivity. Qed.

Lemma log_after_input (msg prompt line : string) (rest : list string) (w : World) :
  log (Printed msg) (after_input prompt line rest w) =
    mkWorld (Shoe_shoe w) (rand w) (rand_pos w) rest
            (console w ++ [Prompted prompt; Typed line; Printed msg]).
Proof.
  unfold after_input, log. cbn [Shoe_shoe rand rand_pos stdin console].
  f_equal. repeat rewrite <- app_assoc. reflexivity.
Qed.

(** ** The player's bet *)

(** One pass of the loop of [place_bet]. *)
Lemma place_bet_S (fuel : nat) (self : Player.t) (w : World) :
  Player.place_bet (S fuel) self w =
    match stdin w with
    | [] => Raise Py.EOFError (log (Prompted (bet_prompt (Player.balance self))) w)
    | line :: rest =>
        let w1 := after_input (bet_prompt (Player.balance self)) line rest w in
        match Py.int line with
        | None =>
            Player.place_bet fuel self
              (log (Printed "Invalid input. Please enter a number.") w1)
        | Some bet =>
            if bet <? 1 then
              Player.place_bet fuel self (log (Printed "Bet must be at least $1.") w1)
            else if Player.balance self <? bet then
              Player.place_bet fuel self
                (log (Printed "You don't have enough money to place that bet.") w1)
            else Ret bet w1
        end
    end.
Proof.
  cbn [Player.place_bet]. unfold bind at 1, try_except, bind at 1.
  fold (bet_prompt (Player.balance self)).
  rewrite input_spec.
  destruct (stdin w) as [ | line rest]; [reflexivity | ].
  cbv zeta. unfold bind at 1.
  destruct (Py.int line) as [bet | ]; cbn [or_ValueError]; unfold ret, raise;
    [ | reflexivity].
  destruct (bet <? 1); [reflexivity | ].
  destruct (Player.balance self <? bet); reflexivity.
Qed.

Lemma place_bet_in_range (fuel : nat) (self : Player.t) :
  forall (w w' : World) (bet : Z),
    Player.place_bet fuel self w = Ret bet w' ->
    1 <= bet <= Player.balance self.
Proof.
  induction fuel as [ | fuel IH]; intros w w' bet Hrun; [discriminate Hrun | ].
  rewrite place_bet_S in Hrun.
  destruct (stdin w) as [ | line rest]; [discriminate Hrun | ].
  cbv zeta in Hrun.
  destruct (Py.int line) as [b | ]; [ | exact (IH _ _ _ Hrun)].
  destruct (Z.ltb_spec b 1); [exact (IH _ _ _ Hrun) | ].
  destruct (Z.ltb_spec (Player.balance self) b); [exact (IH _ _ _ Hrun) | ].
  injection Hrun as <- _. lia.
Qed.







(** ** Reasoning about returning computations *)

Lemma bind_Ret {A B} (c : M A) (k : A -> M B) (w w' : World) (b : B) :
  bind c k w = Ret b w' ->
  exists (a : A) (w1 : World), c w = Ret a w1 /\ k a w1 = Ret b w'.
Proof.
  unfold bind. destruct (c w) as [a w1 | e w1 | ]; try discriminate.
  intros H. exists a, w1. split; [reflexivity | exact H].
Qed.

Lemma bind_print {B} (s : string) (k : unit -> M B) (w : World) :
  bind (print s) k w = k tt (log (Printed s) w).
Proof. reflexivity. Qed.

Lemma or_ValueError_Ret {A} (o : option A) (w w' : World) (a : A) :
  or_ValueError o w = Ret a w' -> o = Some a /\ w' = w.
Proof.
  destruct o as [a0 | ]; simpl; [ | discriminate].
  unfold ret. intros H. injection H as <- <-. split; reflexivity.
Qed.

(** Split a hypothesis [bind c k w = Ret b w'] into its two runs. *)
Ltac inv_bind H :=
  let a := fresh "a" in
  let w1 := fresh "w" in
  let E := fresh "E" in
  apply bind_Ret in H; destruct H as (a & w1 & E & H).

(** [inv_bind] with the names chosen by the caller. *)
Tactic Notation "inv_bind_as" hyp(H) ident(a) ident(w1) ident(E) :=
  apply bind_Ret in H; destruct H as (a & w1 & E & H).

(** ** The round *)

Lemma print_hand_Ret (h : Hand.t) (w w' : World) (u : unit) :
  Table.print_hand h w = Ret u w' ->
  exists v : Z, Hand.calculate_value h = Some v.
Proof.
  unfold Table.print_hand. intros H. inv_bind H.
  apply or_ValueError_Ret in E. destruct E as [E _].
  unfold Hand.str in E.
  destruct (Hand.calculate_value h) as [v | ]; [ | discriminate E].
  exists v. reflexivity.
Qed.

Lemma display_hands_Ret (self : Table.t) (hide : bool) (w w' : World) (u : unit) :
  Table.display_hands self hide w = Ret u w' ->
  exists v : Z, Hand.calculate_value (Player.hand (Table.player self)) = Some v.
Proof.
  unfold Table.display_hands. rewrite bind_print. intros H. inv_bind H.
  exact (print_hand_Ret _ _ _ _ E).
Qed.

Lemma deal_to_player_Ret (self self' : Table.t) (w w' : World) :
  Table.deal_to_player self w = Ret self' w' ->
  Player.balance (Table.player self') = Player.balance (Table.player self) /\
  Table.dealer self' = Table.dealer self /\
  Table.shoe self' = Table.shoe self.
Proof.
  unfold Table.deal_to_player. intros H. inv_bind H.
  unfold ret in H. injection H as <- _. repeat split.
Qed.

Lemma deal_to_dealer_Ret (self self' : Table.t) (w w' : World) :
  Table.deal_to_dealer self w = Ret self' w' ->
  Table.player self' = Table.player self /\ Table.shoe self' = Table.shoe self.
Proof.
  unfold Table.deal_to_dealer. intros H. inv_bind H.
  unfold ret in H. injection H as <- _. repeat split.
Qed.

(** A returning [player_turn] leaves the balance, the dealer and the shoe
    object alone; the player's hand has a value, above 21 when the result
    is [False]. *)
Lemma player_turn_Ret (fuel : nat) :
  forall (self self' : Table.t) (w w' : World) (stand : bool),
    Table.player_turn fuel self w = Ret (stand, self') w' ->
    Player.balance (Table.player self') = Player.balance (Table.player self) /\
    Table.dealer self' = Table.dealer self /\
    Table.shoe self' = Table.shoe self /\
    exists pv : Z,
      Hand.calculate_value (Player.hand (Table.player self')) = Some pv /\
      (stand = false -> 21 < pv).
Proof.
  induction fuel as [ | fuel IH]; intros self self' w w' stand H; [discriminate H | ].
  cbn [Table.player_turn] in H.
  inv_bind H. apply display_hands_Ret in E. destruct E as (v0 & Ev0).
  inv_bind H. clear E.
  destruct (String.eqb (Py.lower a0) "h").
  - inv_bind H. apply deal_to_player_Ret in E. destruct E as (Eb & Ed & Es).
    inv_bind H. apply or_ValueError_Ret in E. destruct E as [Ev ->].
    destruct (Z.ltb_spec 21 a2) as [Hbust | Hok].
    + rewrite bind_print in H. inv_bind H. rewrite bind_print in H.
      unfold ret in H. injection H as <- <- _.
      split; [exact Eb | ]. split; [exact Ed | ]. split; [exact Es | ].
      exists a2. split; [exact Ev | intros _; exact Hbust].
    + destruct (IH _ _ _ _ _ H) as (Eb' & Ed' & Es' & Hv).
      split; [congruence | ]. split; [congruence | ]. split; [congruence | exact Hv].
  - destruct (String.eqb (Py.lower a0) "s").
    + unfold ret in H. injection H as <- <- _.
      repeat (split; [reflexivity | ]).
      exists v0. split; [exact Ev0 | discriminate].
    + rewrite bind_print in H. exact (IH _ _ _ _ _ H).
Qed.

(** The string [determine_winner] returns, by the two values. *)
Lemma determine_winner_spec (self : Table.t) (w : World) (pv dv : Z) :
  Hand.calculate_value (Player.hand (Table.player self)) = Some pv ->
  Hand.calculate_value (Dealer.hand (Table.dealer self)) = Some dv ->
  Table.determine_winner self w =
    Ret (if 21 <? pv then "Dealer wins! You busted."
         else if 21 <? dv then "You win! Dealer busted."
         else if dv <? pv then "You win!"
         else if pv <? dv then "Dealer wins!"
         else "It's a tie!") w.
Proof.
  intros Ep Ed. unfold Table.determine_winner, bind. rewrite Ep, Ed.
  cbn [or_ValueError]. unfold ret.
  destruct (21 <? pv); [reflexivity | ].
  destruct (21 <? dv); [reflexivity | ].
  destruct (dv <? pv); [reflexivity | ].
  destruct (pv <? dv); reflexivity.
Qed.

Lemma determine_winner_Ret (self : Table.t) (w w' : World) (result : string) :
  Table.determine_winner self w = Ret result w' ->
  exists pv dv : Z,
    Hand.calculate_value (Player.hand (Table.player self)) = Some pv /\
    Hand.calculate_value (Dealer.hand (Table.dealer self)) = Some dv.
Proof.
  unfold Table.determine_winner. intros H.
  inv_bind H. apply or_ValueError_Ret in E. destruct E as [Ep ->].
  inv_bind H. apply or_ValueError_Ret in E. destruct E as [Ed ->].
  exists a, a0. split; assumption.
Qed.

(** Projections of tables and players built by the setters. *)
Ltac table_simpl :=
  cbn [Table.credit Table.set_player Table.set_dealer Table.player Table.dealer
       Table.shoe Player.set_balance Player.set_hand Player.balance Player.hand
       Player.reset_hand Dealer.reset_hand Dealer.hand] in *.

(** Decide the substring tests on the literal result strings. *)
Ltac eval_contains H :=
  repeat match type of H with
         | context [Py.contains ?a ?b] =>
             let v := eval vm_compute in (Py.contains a b) in
             change (Py.contains a b) with v in H
         end.

(** How a returning round moved the balance. *)
Lemma play_round_Ret (fuel : nat) (self self' : Table.t) (w w' : World) :
  Table.play_round fuel self w = Ret self' w' ->
  exists bet pv : Z,
    1 <= bet <= Player.balance (Table.player self) /\
    Hand.calculate_value (Player.hand (Table.player self')) = Some pv /\
    (21 < pv ->
     Player.balance (Table.player self') = Player.balance (Table.player self) - bet) /\
    (pv <= 21 ->
     exists dv : Z,
       Hand.calculate_value (Dealer.hand (Table.dealer self')) = Some dv /\
       (21 < dv \/ dv < pv ->
        Player.balance (Table.player self')
        = Player.balance (Table.player self) - bet + 2 * bet) /\
       (dv <= 21 -> dv = pv ->
        Player.balance (Table.player self')
        = Player.balance (Table.player self) - bet + bet) /\
       (dv <= 21 -> pv < dv ->
        Player.balance (Table.player self')
        = Player.balance (Table.player self) - bet)).
Proof.
  unfold Table.play_round. intros H.
  inv_bind H. rename a into bet. apply place_bet_in_range in E. cbv zeta in H.
  inv_bind H. apply deal_to_player_Ret in E0. destruct E0 as (Eb1 & _ & _).
  inv_bind H. apply deal_to_dealer_Ret in E0. destruct E0 as (Ep2 & _).
  inv_bind H. apply deal_to_player_Ret in E0. destruct E0 as (Eb3 & _ & _).
  inv_bind H. apply deal_to_dealer_Ret in E0. destruct E0 as (Ep4 & _).
  inv_bind H. destruct a3 as [stand self5].
  apply player_turn_Ret in E0. destruct E0 as (Eb5 & _ & _ & pv & Epv & Hbust).
  assert (Ebal : Player.balance (Table.player self5)
                 = Player.balance (Table.player self) - bet).
  { rewrite Eb5, Ep4, Eb3, Ep2, Eb1. table_simpl. lia. }
  exists bet. destruct stand.
  - rewrite bind_print in H. inv_bind H. rename a3 into d. cbv zeta in H.
    inv_bind H. clear E1. inv_bind H.
    destruct (determine_winner_Ret _ _ _ _ E1) as (pv' & dv & Epv' & Edv).
    rewrite (determine_winner_spec _ _ _ _ Epv' Edv) in E1.
    injection E1 as <- <-. table_simpl.
    rewrite Epv in Epv'. injection Epv' as <-.
    rewrite bind_print in H.
    assert (Hfinal :
              Hand.calculate_value (Player.hand (Table.player self')) = Some pv /\
              Hand.calculate_value (Dealer.hand (Table.dealer self')) = Some dv /\
              Player.balance (Table.player self')
              = Player.balance (Table.player self5)
                + (if 21 <? pv then 0
                   else if 21 <? dv then bet * 2
                   else if dv <? pv then bet * 2
                   else if pv <? dv then 0
                   else bet)).
    { destruct (21 <? pv); [ | destruct (21 <? dv); [ | destruct (dv <? pv);
        [ | destruct (pv <? dv)]]];
        eval_contains H; cbv iota zeta in H;
        rewrite bind_print in H; unfold ret in H; injection H as <- _;
        table_simpl; (split; [exact Epv | split; [exact Edv | lia]]). }
    destruct Hfinal as (Hpv & Hdv & Hbal). rewrite Ebal in Hbal.
    exists pv. split; [exact E | ]. split; [exact Hpv | ]. split.
    + intros Hgt. destruct (Z.ltb_spec 21 pv); [lia | lia].
    + intros Hle. exists dv. split; [exact Hdv | ].
      destruct (Z.ltb_spec 21 pv); [lia | ].
      destruct (Z.ltb_spec 21 dv); [repeat split; intros; lia | ].
      destruct (Z.ltb_spec dv pv); [repeat split; intros; lia | ].
      destruct (Z.ltb_spec pv dv); repeat split; intros; lia.
  - rewrite bind_print in H. unfold ret in H. injection H as <- _.
    exists pv. split; [exact E | ]. split; [exact Epv | ].
    specialize (Hbust eq_refl). split; [intros _; exact Ebal | intros Hle; lia].
Qed.

(** A returning round, step by step: the bet is what [place_bet] returned;
    it is off the balance before the player's turn starts; the final
    balance is that balance plus what the outcome credits. *)
Lemma play_round_settles (fuel : nat) (self self' : Table.t) (w w' : World) :
  Table.play_round fuel self w = Ret self' w' ->
  exists (bet : Z) (wb : World) (t4 : Table.t) (w4 : World) (stand : bool)
         (t5 : Table.t) (w5 : World) (pv : Z),
    Player.place_bet fuel (Table.player self) w = Ret bet wb /\
    1 <= bet <= Player.balance (Table.player self) /\
    Player.balance (Table.player t4) = Player.balance (Table.player self) - bet /\
    Table.player_turn fuel t4 w4 = Ret (stand, t5) w5 /\
    Hand.calculate_value (Player.hand (Table.player self')) = Some pv /\
    (21 < pv ->
     Player.balance (Table.player self') = Player.balance (Table.player self) - bet) /\
    (pv <= 21 ->
     exists dv : Z,
       Hand.calculate_value (Dealer.hand (Table.dealer self')) = Some dv /\
       (21 < dv \/ dv < pv ->
        Player.balance (Table.player self')
        = Player.balance (Table.player self) - bet + 2 * bet) /\
       (dv <= 21 -> dv = pv ->
        Player.balance (Table.player self')
        = Player.balance (Table.player self) - bet + bet) /\
       (dv <= 21 -> pv < dv ->
        Player.balance (Table.player self')
        = Player.balance (Table.player self) - bet)).
Proof.
  unfold Table.play_round. intros H.
  inv_bind_as H bet wb Eplace.
  pose proof (place_bet_in_range _ _ _ _ _ Eplace) as Hbet. cbv zeta in H.
  inv_bind_as H t1 w1 E1. apply deal_to_player_Ret in E1. destruct E1 as (Eb1 & _ & _).
  inv_bind_as H t2 w2 E2. apply deal_to_dealer_Ret in E2. destruct E2 as (Ep2 & _).
  inv_bind_as H t3 w3 E3. apply deal_to_player_Ret in E3. destruct E3 as (Eb3 & _ & _).
  inv_bind_as H t4 w4 E4. apply deal_to_dealer_Ret in E4. destruct E4 as (Ep4 & _).
  inv_bind_as H r w5 Eturn. destruct r as [stand t5].
  destruct (player_turn_Ret _ _ _ _ _ _ Eturn) as (Eb5 & _ & _ & pv & Epv & Hbust).
  assert (Eb4 : Player.balance (Table.player t4)
                = Player.balance (Table.player self) - bet).
  { rewrite Ep4, Eb3, Ep2, Eb1. table_simpl. lia. }
  assert (Ebal : Player.balance (Table.player t5)
                 = Player.balance (Table.player self) - bet) by congruence.
  exists bet, wb, t4, w4, stand, t5, w5.
  destruct stand.
  - rewrite bind_print in H. inv_bind_as H d w6 E6. cbv zeta in H.
    inv_bind_as H u w7 E7. clear E7. inv_bind_as H result w8 E8.
    destruct (determine_winner_Ret _ _ _ _ E8) as (pv' & dv & Epv' & Edv).
    rewrite (determine_winner_spec _ _ _ _ Epv' Edv) in E8.
    injection E8 as <- <-. table_simpl.
    rewrite Epv in Epv'. injection Epv' as <-.
    rewrite bind_print in H.
    assert (Hfinal :
              Hand.calculate_value (Player.hand (Table.player self')) = Some pv /\
              Hand.calculate_value (Dealer.hand (Table.dealer self')) = Some dv /\
              Player.balance (Table.player self')
              = Player.balance (Table.player t5)
                + (if 21 <? pv then 0
                   else if 21 <? dv then bet * 2
                   else if dv <? pv then bet * 2
                   else if pv <? dv then 0
                   else bet)).
    { destruct (21 <? pv); [ | destruct (21 <? dv); [ | destruct (dv <? pv);
        [ | destruct (pv <? dv)]]];
        eval_contains H; cbv iota zeta in H;
        rewrite bind_print in H; unfold ret in H; injection H as <- _;
        table_simpl; (split; [exact Epv | split; [exact Edv | lia]]). }
    destruct Hfinal as (Hpv & Hdv & Hbal). rewrite Ebal in Hbal.
    exists pv. split; [exact Eplace | ]. split; [exact Hbet | ].
    split; [exact Eb4 | ]. split; [exact Eturn | ]. split; [exact Hpv | ]. split.
    + intros Hgt. destruct (Z.ltb_spec 21 pv); [lia | lia].
    + intros Hle. exists dv. split; [exact Hdv | ].
      destruct (Z.ltb_spec 21 pv); [lia | ].
      destruct (Z.ltb_spec 21 dv); [repeat split; intros; lia | ].
      destruct (Z.ltb_spec dv pv); [repeat split; intros; lia | ].
      destruct (Z.ltb_spec pv dv); repeat split; intros; lia.
  - rewrite bind_print in H. unfold ret in H. injection H as <- _.
    exists pv. split; [exact Eplace | ]. split; [exact Hbet | ].
    split; [exact Eb4 | ]. split; [exact Eturn | ]. split; [exact Epv | ].
    specialize (Hbust eq_refl). split; [intros _; exact Ebal | intros Hle; lia].
Qed.

(** C2. [determine_winner] reads the two hand values in this order:
    a player above 21 loses whatever the dealer holds; otherwise a dealer
    above 21 loses; otherwise the higher value wins and equal values tie.
    In a round that returns, the bet is the number [place_bet] returned; it
    is off the balance before the player's turn starts; and the final
    balance is the balance less that bet, plus twice that bet on a player
    win, that bet on a tie and nothing on a loss, a bust of the player
    included.  On stacked shoes, with a bet of 10 from 100: 20 against 19
    ends at 110, 18 against 18 at 100, 18 against 19 at 90, a player at 22
    at 90, and 12 against a dealer who draws to 26 at 110; with a bet of 300
    from 500: 20 against 19 ends at 800, 18 against 18 at 500 and 18 against
    19 at 200. *)
Theorem C2_settlement :
  (forall (self : Table.t) (w : World) (pv dv : Z),
      Hand.calculate_value (Player.hand (Table.player self)) = Some pv ->
      Hand.calculate_value (Dealer.hand (Table.dealer self)) = Some dv ->
      exists result : string,
        Table.determine_winner self w = Ret result w /\
        (21 < pv -> result = "Dealer wins! You busted.") /\
        (pv <= 21 -> 21 < dv -> result = "You win! Dealer busted.") /\
        (pv <= 21 -> dv <= 21 -> dv < pv -> result = "You win!") /\
        (pv <= 21 -> dv <= 21 -> pv < dv -> result = "Dealer wins!") /\
        (pv <= 21 -> dv <= 21 -> pv = dv -> result = "It's a tie!")) /\
  (forall (fuel : nat) (self self' : Table.t) (w w' : World),
      Table.play_round fuel self w = Ret self' w' ->
      exists (bet : Z) (wb : World) (t4 : Table.t) (w4 : World) (stand : bool)
             (t5 : Table.t) (w5 : World) (pv : Z),
        Player.place_bet fuel (Table.player self) w = Ret bet wb /\
        1 <= bet <= Player.balance (Table.player self) /\
        Player.balance (Table.player t4) = Player.balance (Table.player self) - bet /\
        Table.player_turn fuel t4 w4 = Ret (stand, t5) w5 /\
        Hand.calculate_value (Player.hand (Table.player self')) = Some pv /\
        (21 < pv ->
         Player.balance (Table.player self')
         = Player.balance (Table.player self) - bet) /\
        (pv <= 21 ->
         exists dv : Z,
           Hand.calculate_value (Dealer.hand (Table.dealer self')) = Some dv /\
           (21 < dv \/ dv < pv ->
            Player.balance (Table.player self')
            = Player.balance (Table.player self) - bet + 2 * bet) /\
           (dv <= 21 -> dv = pv ->
            Player.balance (Table.player self')
            = Player.balance (Table.player self) - bet + bet) /\
           (dv <= 21 -> pv < dv ->
            Player.balance (Table.player self')
            = Player.balance (Table.player self) - bet))) /\
  (forall rnd : nat -> nat,
      balance_after
        (Table.play_round 3 fresh_table
           (stacked [card "9" "♦"; card "Q" "♥"; card "10" "♣"; card "K" "♠"]
                    rnd ["10"; "s"])) = Some 110 /\
      balance_after
        (Table.play_round 3 fresh_table
           (stacked [card "9" "♦"; card "8" "♥"; card "9" "♣"; card "10" "♠"]
                    rnd ["10"; "s"])) = Some 100 /\
      balance_after
        (Table.play_round 3 fresh_table
           (stacked [card "10" "♦"; card "8" "♥"; card "9" "♣"; card "10" "♠"]
                    rnd ["10"; "s"])) = Some 90 /\
      balance_after
        (Table.play_round 3 fresh_table
           (stacked [card "2" "♠"; card "6" "♦"; card "Q" "♥"; card "5" "♣";
                     card "K" "♠"]
                    rnd ["10"; "h"])) = Some 90 /\
      balance_after
        (Table.play_round 3 fresh_table
           (stacked [card "K" "♦"; card "6" "♦"; card "2" "♥"; card "10" "♣";
                     card "10" "♠"]
                    rnd ["10"; "s"])) = Some 110 /\
      balance_after
        (Table.play_round 3 (Table.mk (Shoe.mk 6) (Player.init 500) Dealer.init)
           (stacked [card "9" "♦"; card "Q" "♥"; card "10" "♣"; card "K" "♠"]
                    rnd ["300"; "s"])) = Some 800 /\
      balance_after
        (Table.play_round 3 (Table.mk (Shoe.mk 6) (Player.init 500) Dealer.init)
           (stacked [card "9" "♦"; card "8" "♥"; card "9" "♣"; card "10" "♠"]
                    rnd ["300"; "s"])) = Some 500 /\
      balance_after
        (Table.play_round 3 (Table.mk (Shoe.mk 6) (Player.init 500) Dealer.init)
           (stacked [card "10" "♦"; card "8" "♥"; card "9" "♣"; card "10" "♠"]
                    rnd ["300"; "s"])) = Some 200).
Proof.
  split; [ | split; [exact play_round_settles | ]].
  - intros self w pv dv Ep Ed.
    rewrite (determine_winner_spec self w pv dv Ep Ed).
    eexists. split; [reflexivity | ].
    destruct (Z.ltb_spec 21 pv); [repeat split; intros; (reflexivity || lia) | ].
    destruct (Z.ltb_spec 21 dv); [repeat split; intros; (reflexivity || lia) | ].
    destruct (Z.ltb_spec dv pv); [repeat split; intros; (reflexivity || lia) | ].
    destruct (Z.ltb_spec pv dv); repeat split; intros; (reflexivity || lia).
  - intros rnd. repeat split; vm_compute; reflexivity.
Qed.

(** C2 on the stacked round of 20 against 19 with 300 bet from 500: the
    bet [place_bet] returned is 300 and the round ends at 800. *)
Lemma C2_witness :
  exists (self' : Table.t) (w' wb : World),
    Table.play_round 3 (Table.mk (Shoe.mk 6) (Player.init 500) Dealer.init)
      (stacked [card "9" "♦"; card "Q" "♥"; card "10" "♣"; card "K" "♠"]
               (fun n => n) ["300"; "s"]) = Ret self' w' /\
    Player.place_bet 3 (Player.init 500)
      (stacked [card "9" "♦"; card "Q" "♥"; card "10" "♣"; card "K" "♠"]
               (fun n => n) ["300"; "s"]) = Ret 300 wb /\
    Player.balance (Table.player self') = 500 - 300 + 2 * 300.
Proof.
  assert (Hrun : exists (self' : Table.t) (w' : World),
             Table.play_round 3 (Table.mk (Shoe.mk 6) (Player.init 500) Dealer.init)
               (stacked [card "9" "♦"; card "Q" "♥"; card "10" "♣"; card "K" "♠"]
                        (fun n => n) ["300"; "s"]) = Ret self' w' /\
             Hand.calculate_value (Player.hand (Table.player self')) = Some 20 /\
             Hand.calculate_value (Dealer.hand (Table.dealer self')) = Some 19).
  { vm_compute. eexists _, _. repeat split. }
  destruct Hrun as (self' & w' & Hrun & Hpv & Hdv).
  destruct (proj1 (proj2 C2_settlement) _ _ _ _ _ Hrun)
    as (bet & wb & t4 & w4 & stand & t5 & w5 & pv & Eplace & _ & _ & _ & Epv & _ & Hplay).
  assert (Ebet : bet = 300).
  { revert Eplace. vm_compute. intros Eplace. injection Eplace as <- _. reflexivity. }
  subst bet. exists self', w', wb. split; [exact Hrun | ]. split; [exact Eplace | ].
  assert (pv = 20) by congruence. subst pv.
  destruct (Hplay ltac:(discriminate)) as (dv & Edv & Hwin & _).
  assert (dv = 19) by congruence. subst dv.
  exact (Hwin (or_intror eq_refl)).
Defined.

(** ** The console only grows *)

Lemma grows_ret {A} (a : A) : grows (ret a).
Proof. intros w. exists []. symmetry. apply app_nil_r. Qed.

Lemma grows_raise {A} (e : Py.Exn) : grows (@raise A e).
Proof. intros w. exists []. symmetry. apply app_nil_r. Qed.

Lemma grows_out_of_fuel {A} : grows (@out_of_fuel A).
Proof. intros w. exact I. Qed.

Lemma grows_bind {A B} (c : M A) (k : A -> M B) :
  grows c -> (forall a : A, grows (k a)) -> grows (bind c k).
Proof.
  intros Hc Hk w. unfold bind. specialize (Hc w).
  destruct (c w) as [a w1 | e w1 | ]; [ | exact Hc | exact I].
  specialize (Hk a w1). destruct Hc as (t1 & E1).
  destruct (k a w1) as [b w2 | e w2 | ]; [ | | exact I];
    destruct Hk as (t2 & E2); exists (t1 ++ t2);
    rewrite E2, E1; symmetry; apply app_assoc.
Qed.

Lemma grows_try_except {A} (body handler : M A) (e : Py.Exn) :
  grows body -> grows handler -> grows (try_except body e handler).
Proof.
  intros Hb Hh w. unfold try_except. specialize (Hb w).
  destruct (body w) as [a w1 | e' w1 | ]; [exact Hb | | exact I].
  destruct (exn_eqb e' e); [ | exact Hb].
  specialize (Hh w1). destruct Hb as (t1 & E1).
  destruct (handler w1) as [b w2 | e2 w2 | ]; [ | | exact I];
    destruct Hh as (t2 & E2); exists (t1 ++ t2);
    rewrite E2, E1; symmetry; apply app_assoc.
Qed.

Lemma grows_print (s : string) : grows (print s).
Proof. intros w. exists [Printed s]. reflexivity. Qed.

Lemma grows_input (prompt : string) : grows (input prompt).
Proof.
  intros w. rewrite input_spec. destruct (stdin w) as [ | line rest].
  - exists [Prompted prompt]. reflexivity.
  - exists [Prompted prompt; Typed line]. unfold after_input, log.
    cbn [console]. now rewrite <- app_assoc.
Qed.

Lemma grows_or_ValueError {A} (o : option A) : grows (or_ValueError o).
Proof. destruct o; [apply grows_ret | apply grows_raise]. Qed.

Lemma grows_for_ {A} (l : list A) (body : A -> M unit) :
  (forall a : A, grows (body a)) -> grows (for_ l body).
Proof.
  intros Hbody. induction l as [ | a l IH]; [apply grows_ret | ].
  cbn [for_]. apply grows_bind; [apply Hbody | intros _; exact IH].
Qed.

(** A step that leaves the console as it is. *)
Lemma grows_silent {A} (c : M A) :
  (forall w : World,
      match c w with
      | Ret _ w' | Raise _ w' => console w' = console w
      | OutOfFuel => True
      end) ->
  grows c.
Proof.
  intros H w. specialize (H w).
  destruct (c w); [ | | exact I]; exists []; rewrite H; symmetry; apply app_nil_r.
Qed.

Lemma grows_shuffle (self : Shoe.t) (d : Z) : grows (Shoe.shuffle self d).
Proof.
  apply grows_silent. intros w.
  destruct (shuffle_spec self d w) as (x & pos & -> & _). reflexivity.
Qed.

Lemma grows_deal_card (self : Shoe.t) : grows (Shoe.deal_card self).
Proof.
  unfold Shoe.deal_card.
  apply grows_bind; [apply grows_silent; intros w; reflexivity | intros empty].
  apply grows_bind.
  - destruct empty; [ | apply grows_ret].
    apply grows_bind; [apply grows_shuffle | intros _; apply grows_print].
  - intros _. apply grows_silent. intros w. unfold Shoe.pop.
    destruct (Shoe.pop_last (Shoe_shoe w)) as [[c x] | ]; reflexivity.
Qed.

(** Break a goal [grows c] down along the shape of [c]. *)
Ltac grows_step :=
  match goal with
  | |- grows (bind _ _) => apply grows_bind; [ | intros ? ]
  | |- grows (ret _) => apply grows_ret
  | |- grows (raise _) => apply grows_raise
  | |- grows out_of_fuel => apply grows_out_of_fuel
  | |- grows (print _) => apply grows_print
  | |- grows (input _) => apply grows_input
  | |- grows (or_ValueError _) => apply grows_or_ValueError
  | |- grows (Shoe.deal_card _) => apply grows_deal_card
  | |- grows (try_except _ _ _) => apply grows_try_except
  | |- grows (if ?b then _ else _) => destruct b
  | |- grows (match ?x with Some _ => _ | None => _ end) => destruct x
  | |- grows (let (_, _) := ?p in _) => destruct p
  end.

Lemma grows_place_bet (fuel : nat) (self : Player.t) :
  grows (Player.place_bet fuel self).
Proof.
  induction fuel as [ | fuel IH]; cbn [Player.place_bet];
    repeat grows_step; exact IH.
Qed.

Lemma grows_play_turn (fuel : nat) (shoe : Shoe.t) :
  forall self : Dealer.t, grows (Dealer.play_turn fuel self shoe).
Proof.
  induction fuel as [ | fuel IH]; intros self; cbn [Dealer.play_turn];
    repeat grows_step; apply IH.
Qed.

Lemma grows_display_hands (self : Table.t) (hide : bool) :
  grows (Table.display_hands self hide).
Proof. unfold Table.display_hands, Table.print_hand. repeat grows_step. Qed.

Lemma grows_player_turn (fuel : nat) :
  forall self : Table.t, grows (Table.player_turn fuel self).
Proof.
  induction fuel as [ | fuel IH]; intros self; cbn [Table.player_turn];
    [apply grows_out_of_fuel | ].
  apply grows_bind; [apply grows_display_hands | intros _].
  unfold Table.deal_to_player, Table.print_hand.
  repeat grows_step; apply IH.
Qed.

Lemma grows_play_round (fuel : nat) (self : Table.t) :
  grows (Table.play_round fuel self).
Proof.
  unfold Table.play_round.
  apply grows_bind; [apply grows_place_bet | intros bet]. cbv zeta.
  unfold Table.deal_to_player, Table.deal_to_dealer.
  do 4 (apply grows_bind; [repeat grows_step | intros ?]).
  apply grows_bind; [apply grows_player_turn | intros [stand self5]].
  destruct stand; [ | repeat grows_step].
  apply grows_bind; [apply grows_print | intros _].
  apply grows_bind; [apply grows_play_turn | intros d].
  apply grows_bind; [apply grows_display_hands | intros _].
  unfold Table.determine_winner. repeat grows_step.
Qed.

Lemma grows_play_table_loop (fuel : nat) :
  forall self : Table.t, grows (Table.play_table_loop fuel self).
Proof.
  induction fuel as [ | fuel IH]; intros self; cbn [Table.play_table_loop];
    [apply grows_out_of_fuel | ].
  destruct (0 <? Player.balance (Table.player self)); [ | apply grows_ret].
  apply grows_bind; [apply grows_play_round | intros self1].
  repeat grows_step. apply IH.
Qed.

(** ** The session *)

Lemma starts_with_bind {A B} (e : Event) (c : M A) (k : A -> M B) :
  starts_with e c -> (forall a : A, grows (k a)) -> starts_with e (bind c k).
Proof.
  intros Hc Hk w. unfold bind. specialize (Hc w).
  destruct (c w) as [a w1 | e' w1 | ]; [ | exact Hc | exact I].
  specialize (Hk a w1). destruct Hc as (t1 & E1).
  destruct (k a w1) as [b w2 | e2 w2 | ]; [ | | exact I];
    destruct Hk as (t2 & E2); exists (t1 ++ t2);
    rewrite E2, E1, <- app_assoc; reflexivity.
Qed.

(** A pass of [place_bet] begins with its prompt. *)
Lemma starts_place_bet (fuel : nat) (self : Player.t) :
  starts_with (Prompted (bet_prompt (Player.balance self)))
              (Player.place_bet (S fuel) self).
Proof.
  intros w. rewrite place_bet_S.
  destruct (stdin w) as [ | line rest]; [exists []; reflexivity | ].
  cbv zeta.
  assert (Hnext : forall msg : string,
             match Player.place_bet fuel self
                     (log (Printed msg)
                          (after_input (bet_prompt (Player.balance self)) line rest w))
             with
             | Ret _ w' | Raise _ w' =>
                 exists tail,
                 console w' = console w ++ Prompted (bet_prompt (Player.balance self)) :: tail
             | OutOfFuel => True
             end).
  { intros msg. pose proof (grows_place_bet fuel self
        (log (Printed msg) (after_input (bet_prompt (Player.balance self)) line rest w)))
      as Hg.
    rewrite log_after_input in *. cbn [console] in Hg.
    destruct (Player.place_bet fuel self _) as [b w' | e w' | ]; [ | | exact I];
      destruct Hg as (t & ->); eexists; rewrite <- app_assoc; reflexivity. }
  destruct (Py.int line) as [bet | ]; [ | apply Hnext].
  destruct (bet <? 1); [apply Hnext | ].
  destruct (Player.balance self <? bet); [apply Hnext | ].
  exists [Typed line]. unfold after_input, log. cbn [console].
  now rewrite <- app_assoc.
Qed.

Lemma starts_play_round (fuel : nat) (self : Table.t) :
  starts_with (Prompted (bet_prompt (Player.balance (Table.player self))))
              (Table.play_round (S fuel) self).
Proof.
  unfold Table.play_round.
  apply starts_with_bind; [apply starts_place_bet | intros bet]. cbv zeta.
  unfold Table.deal_to_player, Table.deal_to_dealer.
  do 4 (apply grows_bind; [repeat grows_step | intros ?]).
  apply grows_bind; [apply grows_player_turn | intros [stand self5]].
  destruct stand; [ | repeat grows_step].
  apply grows_bind; [apply grows_print | intros _].
  apply grows_bind; [apply grows_play_turn | intros d].
  apply grows_bind; [apply grows_display_hands | intros _].
  unfold Table.determine_winner. repeat grows_step.
Qed.

(** One pass of the session loop, by what the round left. *)
Lemma play_table_loop_S (fuel : nat) (self self1 : Table.t) (w w1 : World) :
  0 < Player.balance (Table.player self) ->
  Table.play_round fuel self w = Ret self1 w1 ->
  Table.play_table_loop (S fuel) self w =
    if Player.balance (Table.player self1) =? 0 then
      Ret self1 (log (Printed (Py.nl ++ "You're out of money! Game over.")%string) w1)
    else
      match stdin w1 with
      | [] => Raise Py.EOFError (log (Prompted continue_prompt) w1)
      | line :: rest =>
          if String.eqb (Py.lower line) "y" then
            Table.play_table_loop fuel (reset_hands self1)
              (after_input continue_prompt line rest w1)
          else
            Ret self1
              (log (Printed (Py.nl ++ "Thanks for playing! You leave with $"
                             ++ Py.str (Player.balance (Table.player self1)) ++ ".")%string)
                   (after_input continue_prompt line rest w1))
      end.
Proof.
  intros Hpos Hround. cbn [Table.play_table_loop].
  destruct (Z.ltb_spec 0 (Player.balance (Table.player self))); [ | lia].
  unfold bind at 1. rewrite Hround.
  destruct (Player.balance (Table.player self1) =? 0); [reflexivity | ].
  unfold bind at 1. fold continue_prompt. rewrite input_spec.
  destruct (stdin w1) as [ | line rest]; [reflexivity | ].
  destruct (String.eqb (Py.lower line) "y"); reflexivity.
Qed.

(** C7. In the session loop, once a round has returned: with the balance
    at exactly 0 the loop prints the out-of-money line and returns, reading
    and prompting nothing more; otherwise it issues the continue prompt and
    reads a line.  A line that lower-cases to y resets both hands (the
    balance kept) and takes the loop round again, where, the balance being
    positive, the next console event is the bet prompt.  Any other line
    ends the session with the line that reports the balance.  In a whole
    session whose first round loses a bet of 100, the only prompts are the
    bet prompt and the hit-or-stand prompt, and the lines typed ahead stay
    unread. *)
Theorem C7_session_loop :
  (forall (fuel : nat) (self self1 : Table.t) (w w1 : World),
      0 < Player.balance (Table.player self) ->
      Table.play_round fuel self w = Ret self1 w1 ->
      Player.balance (Table.player self1) = 0 ->
      Table.play_table_loop (S fuel) self w =
        Ret self1 (log (Printed (Py.nl ++ "You're out of money! Game over.")%string) w1)) /\
  (forall (fuel : nat) (self self1 : Table.t) (w w1 : World) (line : string)
          (rest : list string),
      0 < Player.balance (Table.player self) ->
      Table.play_round fuel self w = Ret self1 w1 ->
      Player.balance (Table.player self1) <> 0 ->
      stdin w1 = line :: rest ->
      (Py.lower line = "y" ->
       0 < Player.balance (Table.player (reset_hands self1)) /\
       Table.play_table_loop (S fuel) self w =
         Table.play_table_loop fuel (reset_hands self1)
           (after_input continue_prompt line rest w1)) /\
      (Py.lower line <> "y" ->
       Table.play_table_loop (S fuel) self w =
         Ret self1
           (log (Printed (Py.nl ++ "Thanks for playing! You leave with $"
                          ++ Py.str (Player.balance (Table.player self1)) ++ ".")%string)
                (after_input continue_prompt line rest w1)))) /\
  (forall self : Table.t,
      Hand.cards (Player.hand (Table.player (reset_hands self))) = [] /\
      Hand.cards (Dealer.hand (Table.dealer (reset_hands self))) = [] /\
      Player.balance (Table.player (reset_hands self))
      = Player.balance (Table.player self) /\
      Table.shoe (reset_hands self) = Table.shoe self) /\
  (forall (fuel : nat) (self : Table.t),
      0 < Player.balance (Table.player self) ->
      starts_with (Prompted (bet_prompt (Player.balance (Table.player self))))
                  (Table.play_table_loop (S (S fuel)) self)) /\
  session_summary (main 3 (initial_world (fun n => S n) ["100"; "s"; "y"; "50"]))
  = Some (0, [bet_prompt 100; hit_or_stand_prompt], ["y"; "50"]) /\
  session_summary (main 3 (initial_world (fun n => S n) ["40"; "s"; "no"; "60"]))
  = Some (60, [bet_prompt 100; hit_or_stand_prompt; continue_prompt], ["60"]) /\
  session_summary (main 4 (initial_world (fun n => S n) ["40"; "s"; "Y"; "60"; "s"; "y"]))
  = Some (0, [bet_prompt 100; hit_or_stand_prompt; continue_prompt;
              bet_prompt 60; hit_or_stand_prompt], ["y"]).
Proof.
  split; [ | split; [ | split; [ | split]]].
  - intros fuel self self1 w w1 Hpos Hround Hzero.
    rewrite (play_table_loop_S fuel self self1 w w1 Hpos Hround), Hzero. reflexivity.
  - intros fuel self self1 w w1 line rest Hpos Hround Hnz Ein.
    rewrite (play_table_loop_S fuel self self1 w w1 Hpos Hround), Ein.
    destruct (Z.eqb_spec (Player.balance (Table.player self1)) 0) as [ | _];
      [contradiction | ].
    split.
    + intros Hy. rewrite Hy. cbn [String.eqb]. split; [ | reflexivity].
      destruct (play_round_Ret fuel self self1 w w1 Hround)
        as (bet & pv & Hbet & _ & Hbust & Hplay).
      unfold reset_hands. table_simpl.
      destruct (Z_lt_le_dec 21 pv) as [Hgt | Hle]; [specialize (Hbust Hgt); lia | ].
      destruct (Hplay Hle) as (dv & _ & Hwin & Hpush & Hlose).
      destruct (Z_lt_le_dec 21 dv) as [Hd | Hd]; [specialize (Hwin (or_introl Hd)); lia | ].
      destruct (Z_lt_le_dec dv pv) as [Hc | Hc]; [specialize (Hwin (or_intror Hc)); lia | ].
      destruct (Z.eq_dec dv pv) as [He | Hne]; [specialize (Hpush Hd He); lia | ].
      assert (Hlt : pv < dv) by lia. specialize (Hlose Hd Hlt). lia.
    + intros Hn. destruct (String.eqb_spec (Py.lower line) "y"); [contradiction | ].
      reflexivity.
  - intros self. repeat split.
  - intros fuel self Hpos. remember (S fuel) as n eqn:En.
    cbn [Table.play_table_loop].
    destruct (Z.ltb_spec 0 (Player.balance (Table.player self))); [ | lia].
    apply starts_with_bind; [subst n; apply starts_play_round | intros self1].
    repeat grows_step. apply grows_play_table_loop.
  - repeat split; vm_compute; reflexivity.
Qed.

(** C7 on a stacked round that bets the whole balance and loses 18
    against 19: the loop ends there, the lines typed ahead unread. *)
Lemma C7_witness :
  exists (self1 : Table.t) (w1 : World),
    0 < Player.balance (Table.player fresh_table) /\
    Table.play_round 2 fresh_table
      (stacked [card "10" "♦"; card "8" "♥"; card "9" "♣"; card "10" "♠"]
               (fun n => n) ["100"; "s"; "y"; "50"]) = Ret self1 w1 /\
    Player.balance (Table.player self1) = 0 /\
    Table.play_table_loop 3 fresh_table
      (stacked [card "10" "♦"; card "8" "♥"; card "9" "♣"; card "10" "♠"]
               (fun n => n) ["100"; "s"; "y"; "50"]) =
      Ret self1 (log (Printed (Py.nl ++ "You're out of money! Game over.")%string) w1).
Proof.
  assert (Hround : exists (self1 : Table.t) (w1 : World),
             Table.play_round 2 fresh_table
               (stacked [card "10" "♦"; card "8" "♥"; card "9" "♣"; card "10" "♠"]
                        (fun n => n) ["100"; "s"; "y"; "50"]) = Ret self1 w1 /\
             Player.balance (Table.player self1) = 0).
  { vm_compute. eexists _, _. split; reflexivity. }
  destruct Hround as (self1 & w1 & Hround & Hzero).
  assert (Hpos : 0 < Player.balance (Table.player fresh_table)) by reflexivity.
  exists self1, w1. split; [exact Hpos | ]. split; [exact Hround | ].
  split; [exact Hzero | ].
  exact (proj1 C7_session_loop 2%nat fresh_table self1 _ w1 Hpos Hround Hzero).
Defined.

(** * Further properties of the code *)

(** ** Hand values: the standard rule *)

Lemma hard_total_at_least_aces (cs : list Card) :
  Forall valid_card cs -> Z.of_nat (spec_aces cs) <= hard_total cs.
Proof.
  induction 1 as [ | c cs Hc _ IH]; [discriminate | ].
  change (c :: cs) with ([c] ++ cs). rewrite hard_total_app, spec_aces_app.
  pose proof (hard_card_positive c Hc) as Hpos.
  cbn [spec_aces app]. destruct (is_ace c); cbn [spec_aces Nat.add]; lia.
Qed.

Lemma spec_total_hard (cs : list Card) :
  spec_total cs = hard_total cs + 10 * Z.of_nat (spec_aces cs).
Proof. unfold hard_total. lia. Qed.

(** The value of a hand of valid cards, from its hard total and whether
    it holds an Ace. *)
Lemma adjust_aces_soft (cs : list Card) :
  Forall valid_card cs ->
  Hand.adjust_aces (spec_total cs) (spec_aces cs) =
    if (0 <? spec_aces cs)%nat && (hard_total cs <=? 11)
    then hard_total cs + 10 else hard_total cs.
Proof.
  intros Hv. pose proof (hard_total_at_least_aces cs Hv) as Hge.
  destruct (adjust_aces_reductions (spec_aces cs) (spec_total cs))
    as (k & -> & Hk & Hall & Hstop).
  rewrite spec_total_hard in *.
  set (a := spec_aces cs) in *. set (h := hard_total cs) in *.
  destruct (Nat.ltb_spec 0 a) as [Ha | Ha];
    destruct (Z.leb_spec h 11) as [Hh | Hh]; cbn [andb].
  - assert (Hka : (k < a)%nat).
    { destruct (Nat.eq_dec k a) as [-> | Hne]; [ | lia].
      specialize (Hall (a - 1)%nat). lia. }
    destruct Hstop as [-> | Hstop]; [lia | ].
    assert (a = S k) by lia. subst a. lia.
  - assert (k = a).
    { destruct Hstop as [-> | Hstop]; [reflexivity | lia]. }
    lia.
  - assert (a = 0%nat) by lia. assert (k = 0%nat) by lia. lia.
  - assert (a = 0%nat) by lia. assert (k = 0%nat) by lia. lia.
Qed.

Lemma calculate_value_soft (h : Hand.t) :
  Forall valid_card (Hand.cards h) ->
  Hand.calculate_value h =
    Some (if (0 <? spec_aces (Hand.cards h))%nat && (hard_total (Hand.cards h) <=? 11)
          then hard_total (Hand.cards h) + 10
          else hard_total (Hand.cards h)).
Proof.
  intros Hv. rewrite (calculate_value_valid h Hv), (adjust_aces_soft _ Hv). reflexivity.
Qed.

(** X1. On a hand of cards of the shoe's ranks, [calculate_value] is the
    usual Blackjack total: the hard total (every Ace as 1), plus 10 when the
    hand holds an Ace and the hard total is at most 11.  So at most one Ace
    ever counts as 11. *)
Theorem X1_value_counts_one_ace_high (h : Hand.t) :
  Forall valid_card (Hand.cards h) ->
  Hand.calculate_value h =
    Some (if (0 <? spec_aces (Hand.cards h))%nat && (hard_total (Hand.cards h) <=? 11)
          then hard_total (Hand.cards h) + 10
          else hard_total (Hand.cards h)).
Proof.
  intros Hv. unfold Hand.calculate_value.
  rewrite (count_cards_valid _ Hv). cbn [Z.add Nat.add].
  rewrite (adjust_aces_soft _ Hv). reflexivity.
Qed.

Lemma X1_witness :
  Forall valid_card [card "A" "♠"; card "A" "♥"; card "9" "♦"] /\
  Hand.calculate_value (Hand.mk [card "A" "♠"; card "A" "♥"; card "9" "♦"]) =
    Some (if (0 <? spec_aces [card "A" "♠"; card "A" "♥"; card "9" "♦"])%nat
             && (hard_total [card "A" "♠"; card "A" "♥"; card "9" "♦"] <=? 11)
          then hard_total [card "A" "♠"; card "A" "♥"; card "9" "♦"] + 10
          else hard_total [card "A" "♠"; card "A" "♥"; card "9" "♦"]).
Proof.
  assert (Hv : Forall valid_card [card "A" "♠"; card "A" "♥"; card "9" "♦"]).
  { repeat apply Forall_cons; try apply Forall_nil; unfold valid_card; simpl; tauto. }
  split; [exact Hv | ].
  exact (X1_value_counts_one_ace_high (Hand.mk _) Hv).
Defined.

Lemma value_bust_iff (h : Hand.t) (v : Z) :
  Forall valid_card (Hand.cards h) ->
  Hand.calculate_value h = Some v ->
  (21 < v <-> 21 < hard_total (Hand.cards h)).
Proof.
  intros Hv Ev. rewrite (calculate_value_soft h Hv) in Ev. injection Ev as <-.
  destruct ((0 <? spec_aces (Hand.cards h))%nat); cbn [andb]; [ | reflexivity].
  destruct (Z.leb_spec (hard_total (Hand.cards h)) 11); lia.
Qed.

Lemma hard_card_at_most_10 (c : Card) : valid_card c -> hard_total [c] <= 10.
Proof.
  destruct c as [r s]. unfold valid_card. simpl. intros H.
  repeat (destruct H as [H | H]; [subst r; vm_compute; discriminate | ]).
  destruct H.
Qed.

(** X2. A hand of valid cards is bust exactly when its hard total exceeds
    21.  Hence a hand of at most two cards is never bust (two Aces count
    12), and a bust hand stays bust whatever valid card [add_card] adds. *)
Theorem X2_bust_is_about_the_hard_total :
  (forall (h : Hand.t) (v : Z),
      Forall valid_card (Hand.cards h) ->
      Hand.calculate_value h = Some v ->
      (21 < v <-> 21 < hard_total (Hand.cards h))) /\
  (forall h : Hand.t,
      Forall valid_card (Hand.cards h) ->
      (List.length (Hand.cards h) <= 2)%nat ->
      exists v : Z, Hand.calculate_value h = Some v /\ 0 <= v <= 21) /\
  (forall (h : Hand.t) (c : Card) (v : Z),
      Forall valid_card (Hand.cards h) ->
      valid_card c ->
      Hand.calculate_value h = Some v ->
      21 < v ->
      exists v' : Z, Hand.calculate_value (Hand.add_card h c) = Some v' /\ 21 < v').
Proof.
  split; [exact value_bust_iff | split].
  - intros h Hv Hlen.
    pose proof (calculate_value_soft h Hv) as Ev.
    eexists. split; [exact Ev | ].
    assert (Hhard : 0 <= hard_total (Hand.cards h) <= 20).
    { split; [apply hard_total_nonneg, Hv | ].
      destruct h as [[ | c1 [ | c2 [ | c3 cs]]]]; cbn [Hand.cards] in *.
      - discriminate.
      - inversion Hv as [ | ? ? H1 _]; subst.
        pose proof (hard_card_at_most_10 c1 H1). lia.
      - inversion Hv as [ | ? ? H1 Hv']; subst.
        inversion Hv' as [ | ? ? H2 _]; subst.
        change [c1; c2] with ([c1] ++ [c2]). rewrite hard_total_app.
        pose proof (hard_card_at_most_10 c1 H1).
        pose proof (hard_card_at_most_10 c2 H2). lia.
      - simpl in Hlen. lia. }
    destruct ((0 <? spec_aces (Hand.cards h))%nat); cbn [andb]; [ | lia].
    destruct (Z.leb_spec (hard_total (Hand.cards h)) 11); lia.
  - intros h c v Hv Hc Ev Hbust.
    assert (Hv' : Forall valid_card (Hand.cards (Hand.add_card h c))).
    { cbn [Hand.add_card Hand.cards]. apply Forall_app. split; [exact Hv | now constructor]. }
    pose proof (calculate_value_soft _ Hv') as Ev'.
    eexists. split; [exact Ev' | ].
    apply (value_bust_iff _ _ Hv' Ev').
    cbn [Hand.add_card Hand.cards]. rewrite hard_total_app.
    pose proof (hard_card_positive c Hc).
    apply (value_bust_iff h v Hv Ev) in Hbust. lia.
Qed.

Lemma X2_witness :
  exists v' : Z,
    Hand.calculate_value
      (Hand.add_card (Hand.mk [card "K" "♠"; card "Q" "♥"; card "5" "♦"]) (card "A" "♣"))
    = Some v' /\ 21 < v'.
Proof.
  apply (proj2 (proj2 X2_bust_is_about_the_hard_total)
           (Hand.mk [card "K" "♠"; card "Q" "♥"; card "5" "♦"]) (card "A" "♣") 25).
  - repeat apply Forall_cons; try apply Forall_nil; unfold valid_card; simpl; tauto.
  - unfold valid_card; simpl; tauto.
  - reflexivity.
  - reflexivity.
Defined.

(** ** The shoe: what a shuffle keeps *)

Definition Card_eq_dec (a b : Card) : {a = b} + {a <> b}.
Proof. decide equality; apply string_dec. Defined.

(** One of the 52 combinations [shuffle] builds. *)
Definition in_deck (c : Card) : bool :=
  Py.mem (rank c) Shoe.ranks && Py.mem (suit c) Shoe.suits.

Lemma count_occ_NoDup (l : list string) (x : string) :
  NoDup l ->
  count_occ string_dec l x = if Py.mem x l then 1%nat else 0%nat.
Proof.
  unfold Py.mem. induction 1 as [ | y l Hy _ IH]; [reflexivity | ].
  cbn [count_occ existsb]. destruct (string_dec y x) as [-> | Hne].
  - rewrite String.eqb_refl. cbn [orb].
    apply (count_occ_not_In string_dec) in Hy. now rewrite Hy.
  - destruct (String.eqb_spec x y) as [-> | _]; [contradiction | ]. exact IH.
Qed.

Lemma ranks_NoDup : NoDup Shoe.ranks.
Proof.
  unfold Shoe.ranks.
  repeat (apply NoDup_cons;
          [cbn [In]; intros H; repeat (destruct H as [H | H]; [discriminate H | ]);
           exact H | ]).
  apply NoDup_nil.
Qed.

Lemma suits_NoDup : NoDup Shoe.suits.
Proof.
  unfold Shoe.suits.
  repeat (apply NoDup_cons;
          [cbn [In]; intros H; repeat (destruct H as [H | H]; [discriminate H | ]);
           exact H | ]).
  apply NoDup_nil.
Qed.

Lemma count_occ_one_suit (s : string) (l : list string) (c : Card) :
  count_occ Card_eq_dec (map (fun r => mkCard r s) l) c =
    if String.eqb s (suit c) then count_occ string_dec l (rank c) else 0%nat.
Proof.
  destruct c as [r0 s0]. cbn [suit rank].
  induction l as [ | r l IH]; cbn [map count_occ].
  - now destruct (String.eqb s s0).
  - rewrite IH.
    destruct (Card_eq_dec (mkCard r s) (mkCard r0 s0)) as [E | N].
    + injection E as -> ->. rewrite String.eqb_refl.
      destruct (string_dec r0 r0); [reflexivity | contradiction].
    + destruct (String.eqb_spec s s0) as [-> | _]; [ | reflexivity].
      destruct (string_dec r r0) as [-> | _]; [contradiction | reflexivity].
Qed.

Lemma count_occ_all_suits (l : list string) (c : Card) :
  count_occ Card_eq_dec
    (flat_map (fun s => map (fun r => mkCard r s) Shoe.ranks) l) c =
    (count_occ string_dec l (suit c) * count_occ string_dec Shoe.ranks (rank c))%nat.
Proof.
  induction l as [ | s l IH]; [reflexivity | ].
  cbn [flat_map count_occ]. rewrite count_occ_app, IH, count_occ_one_suit.
  destruct (string_dec s (suit c)) as [-> | Hne].
  - rewrite String.eqb_refl. lia.
  - destruct (String.eqb_spec s (suit c)); [contradiction | lia].
Qed.

Lemma count_occ_standard_deck (c : Card) :
  count_occ Card_eq_dec standard_deck c = if in_deck c then 1%nat else 0%nat.
Proof.
  unfold standard_deck, in_deck. rewrite count_occ_all_suits.
  rewrite (count_occ_NoDup _ _ ranks_NoDup), (count_occ_NoDup _ _ suits_NoDup).
  destruct (Py.mem (rank c) Shoe.ranks), (Py.mem (suit c) Shoe.suits); reflexivity.
Qed.

Lemma count_occ_decks (n : nat) (c : Card) :
  count_occ Card_eq_dec (decks n) c = if in_deck c then n else 0%nat.
Proof.
  induction n as [ | n IH]; cbn [decks].
  - now destruct (in_deck c).
  - rewrite count_occ_app, IH, count_occ_standard_deck. now destruct (in_deck c).
Qed.

(** X4. [shuffle(deck_count)] always returns, loses no card and invents
    none: the list afterwards is a rearrangement of the old list followed by
    [deck_count] standard decks, so each of the 52 rank and suit
    combinations gains exactly [deck_count] copies (none for a count of 0 or
    less) and every other card keeps its count.  Input and console are
    untouched. *)
Theorem X4_shuffle_keeps_every_card (self : Shoe.t) (d : Z) (w : World) :
  exists w' : World,
    Shoe.shuffle self d w = Ret tt w' /\
    Permutation (Shoe_shoe w') (Shoe_shoe w ++ decks (Z.to_nat d)) /\
    (forall c : Card,
        count_occ Card_eq_dec (Shoe_shoe w') c =
          (count_occ Card_eq_dec (Shoe_shoe w) c
           + if in_deck c then Z.to_nat d else 0)%nat) /\
    stdin w' = stdin w /\ console w' = console w.
Proof.
  destruct (shuffle_spec self d w) as (x & pos & Hs & Hp).
  eexists. split; [exact Hs | ]. world_simpl.
  split; [exact Hp | ]. split; [ | split; reflexivity].
  intros c. rewrite (Permutation_count_occ Card_eq_dec) in Hp.
  rewrite Hp, count_occ_app, count_occ_decks. reflexivity.
Qed.

Lemma app_inj_same_tail_length {A} (l1 : list A) :
  forall l2 r1 r2 : list A,
    l1 ++ r1 = l2 ++ r2 ->
    List.length r1 = List.length r2 ->
    l1 = l2 /\ r1 = r2.
Proof.
  induction l1 as [ | a l1 IH]; intros l2 r1 r2 E Hlen.
  - destruct l2 as [ | b l2]; [split; [reflexivity | exact E] | ].
    apply (f_equal (@List.length A)) in E. cbn [app] in E.
    cbn [List.length] in E. rewrite length_app in E. lia.
  - destruct l2 as [ | b l2].
    + apply (f_equal (@List.length A)) in E. cbn [app] in E.
      cbn [List.length] in E. rewrite length_app in E. lia.
    + cbn [app] in E. injection E as -> E.
      destruct (IH l2 r1 r2 E Hlen) as [-> ->]. split; reflexivity.
Qed.

(** X5. Consecutive deals take the cards from the end of the list: from a
    shoe whose list ends with [top], as many [deal_card] calls as [top] has
    cards return them last card first, leave the rest of the list, and
    neither reshuffle nor print. *)
Theorem X5_deals_come_off_the_end (self : Shoe.t) (w : World) (rest top : list Card) :
  Shoe_shoe w = rest ++ top ->
  deal_cards (List.length top) self w = Ret (rev top) (set_shoe rest w).
Proof.
  intros E.
  destruct (deal_cards_spec self (List.length top) w) as (cs & x & Hdeal & Hx & Hlen).
  { rewrite E, length_app. lia. }
  rewrite E in Hx.
  assert (Hsplit : rest = x /\ top = rev cs).
  { apply app_inj_same_tail_length; [exact Hx | now rewrite length_rev]. }
  destruct Hsplit as [-> ->]. rewrite rev_involutive. exact Hdeal.
Qed.

Lemma X5_witness :
  Shoe_shoe (stacked [card "2" "♠"; card "K" "♥"; card "A" "♦"] (fun n => n) [])
  = [card "2" "♠"] ++ [card "K" "♥"; card "A" "♦"] /\
  deal_cards 2 (Shoe.mk 6)
    (stacked [card "2" "♠"; card "K" "♥"; card "A" "♦"] (fun n => n) [])
  = Ret (rev [card "K" "♥"; card "A" "♦"])
        (set_shoe [card "2" "♠"]
           (stacked [card "2" "♠"; card "K" "♥"; card "A" "♦"] (fun n => n) [])).
Proof.
  split; [reflexivity | ].
  apply (X5_deals_come_off_the_end (Shoe.mk 6)
           (stacked [card "2" "♠"; card "K" "♥"; card "A" "♦"] (fun n => n) [])
           [card "2" "♠"] [card "K" "♥"; card "A" "♦"]).
  reflexivity.
Defined.

(** ** The bet: which line is taken *)




(** ** Running on cards of the shoe's ranks *)

(** A computation ended well: it returned with [Q], or it raised
    [EOFError]; no other exception, and the loop bounds sufficed. *)
Definition ends_well {A} (Q : A -> World -> Prop) (o : Outcome A) : Prop :=
  match o with
  | Ret a w' => Q a w'
  | Raise e _ => e = Py.EOFError
  | OutOfFuel => False
  end.

(** The table's shoe has a deck to refill from and both hands hold cards
    of the shoe's ranks. *)
Definition valid_table (t : Table.t) : Prop :=
  1 <= Shoe.deck_count (Table.shoe t) /\
  Forall valid_card (Hand.cards (Player.hand (Table.player t))) /\
  Forall valid_card (Hand.cards (Dealer.hand (Table.dealer t))).

Lemma ends_well_weaken {A} (Q Q' : A -> World -> Prop) (o : Outcome A) :
  ends_well Q o -> (forall a w, Q a w -> Q' a w) -> ends_well Q' o.
Proof. destruct o; cbn [ends_well]; auto. Qed.

Lemma ends_well_bind {A B} (c : M A) (k : A -> M B) (w : World)
    (Q1 : A -> World -> Prop) (Q : B -> World -> Prop) :
  ends_well Q1 (c w) ->
  (forall a w1, Q1 a w1 -> ends_well Q (k a w1)) ->
  ends_well Q (bind c k w).
Proof.
  unfold bind. destruct (c w) as [a w1 | e w1 | ]; cbn [ends_well]; auto.
Qed.

Lemma bind_Ret_eq {A B} (c : M A) (k : A -> M B) (w w1 : World) (a : A) :
  c w = Ret a w1 -> bind c k w = k a w1.
Proof. intros E. unfold bind. now rewrite E. Qed.

Lemma print_hand_valid (h : Hand.t) (w : World) :
  Forall valid_card (Hand.cards h) ->
  exists s : string, Table.print_hand h w = Ret tt (log (Printed s) w).
Proof.
  intros Hv. unfold Table.print_hand, Hand.str, bind.
  rewrite (calculate_value_valid h Hv). cbn [or_ValueError]. unfold ret.
  eexists. reflexivity.
Qed.

Lemma display_hands_valid (t : Table.t) (hide : bool) (w : World) :
  Forall valid_card (Hand.cards (Player.hand (Table.player t))) ->
  (hide = false -> Forall valid_card (Hand.cards (Dealer.hand (Table.dealer t)))) ->
  exists w' : World,
    Table.display_hands t hide w = Ret tt w' /\
    Shoe_shoe w' = Shoe_shoe w /\ stdin w' = stdin w.
Proof.
  intros Hp Hd. unfold Table.display_hands. rewrite bind_print.
  destruct (print_hand_valid (Player.hand (Table.player t))
              (log (Printed (Py.nl ++ "Your hand:")%string) w) Hp) as (s & Es).
  rewrite (bind_Ret_eq _ _ _ _ _ Es), bind_print.
  destruct hide.
  - eexists. split; [reflexivity | split; reflexivity].
  - destruct (print_hand_valid (Dealer.hand (Table.dealer t))
                (log (Printed (Py.nl ++ "Dealer's hand:")%string) (log (Printed s)
                   (log (Printed (Py.nl ++ "Your hand:")%string) w))) (Hd eq_refl))
      as (s' & ->).
    eexists. split; [reflexivity | split; reflexivity].
Qed.

Lemma place_bet_ends_well (fuel : nat) (self : Player.t) :
  forall w : World,
    (List.length (stdin w) < fuel)%nat ->
    ends_well
      (fun bet w' =>
         1 <= bet <= Player.balance self /\
         Shoe_shoe w' = Shoe_shoe w /\
         (List.length (stdin w') < List.length (stdin w))%nat)
      (Player.place_bet fuel self w).
Proof.
  induction fuel as [ | fuel IH]; intros w Hfuel; [lia | ].
  rewrite place_bet_S.
  destruct (stdin w) as [ | line rest] eqn:Ein; [reflexivity | ].
  cbv zeta. cbn [List.length] in Hfuel.
  assert (Hnext : forall msg : string,
             ends_well
               (fun bet w' =>
                  1 <= bet <= Player.balance self /\
                  Shoe_shoe w' = Shoe_shoe w /\
                  (List.length (stdin w') < List.length (line :: rest))%nat)
               (Player.place_bet fuel self
                  (log (Printed msg)
                     (after_input (bet_prompt (Player.balance self)) line rest w)))).
  { intros msg. rewrite log_after_input.
    eapply ends_well_weaken; [apply IH; cbn [stdin]; lia | ].
    cbn [stdin Shoe_shoe List.length]. intros bet w' (Hb & Hs & Hl).
    split; [exact Hb | split; [exact Hs | lia]]. }
  destruct (Py.int line) as [bet | ]; [ | apply Hnext].
  destruct (Z.ltb_spec bet 1); [apply Hnext | ].
  destruct (Z.ltb_spec (Player.balance self) bet); [apply Hnext | ].
  cbn [ends_well]. unfold after_input, log. cbn [stdin Shoe_shoe List.length].
  split; [lia | split; [reflexivity | lia]].
Qed.

(** ** The player's turn *)

Lemma deal_to_player_hand (self self' : Table.t) (w w' : World) :
  Table.deal_to_player self w = Ret self' w' ->
  exists c : Card,
    Shoe.deal_card (Table.shoe self) w = Ret c w' /\
    self' = Table.set_player self
              (Player.set_hand (Table.player self)
                 (Hand.add_card (Player.hand (Table.player self)) c)).
Proof.
  unfold Table.deal_to_player. intros H. inv_bind H.
  unfold ret in H. injection H as <- <-. exists a. split; [exact E | reflexivity].
Qed.

Lemma deal_to_dealer_hand (self self' : Table.t) (w w' : World) :
  Table.deal_to_dealer self w = Ret self' w' ->
  exists c : Card,
    Shoe.deal_card (Table.shoe self) w = Ret c w' /\
    self' = Table.set_dealer self
              (Dealer.mk (Hand.add_card (Dealer.hand (Table.dealer self)) c)).
Proof.
  unfold Table.deal_to_dealer. intros H. inv_bind H.
  unfold ret in H. injection H as <- <-. exists a. split; [exact E | reflexivity].
Qed.

Lemma calculate_value_cards (h h' : Hand.t) :
  Hand.cards h = Hand.cards h' -> Hand.calculate_value h = Hand.calculate_value h'.
Proof. unfold Hand.calculate_value. now intros ->. Qed.

(** X7. A player's turn that starts on a hand worth at most 21 and
    returns has only appended cards to the player's hand, and left the
    dealer and the balance alone.  It returns [True] only on a hand worth at
    most 21, and [False] only on a hand worth more than 21 whose last card
    made it so: without that card the hand was worth at most 21. *)
Theorem X7_player_turn_stops_at_the_bust (fuel : nat) :
  forall (self self' : Table.t) (w w' : World) (stand : bool) (v0 : Z),
    Hand.calculate_value (Player.hand (Table.player self)) = Some v0 ->
    v0 <= 21 ->
    Table.player_turn fuel self w = Ret (stand, self') w' ->
    exists (hits : list Card) (pv : Z),
      Hand.cards (Player.hand (Table.player self'))
      = Hand.cards (Player.hand (Table.player self)) ++ hits /\
      Hand.calculate_value (Player.hand (Table.player self')) = Some pv /\
      (stand = true -> pv <= 21) /\
      (stand = false ->
       21 < pv /\
       exists (before : list Card) (c : Card) (v : Z),
         hits = before ++ [c] /\
         Hand.calculate_value
           (Hand.mk (Hand.cards (Player.hand (Table.player self)) ++ before)) = Some v /\
         v <= 21) /\
      Table.dealer self' = Table.dealer self /\
      Player.balance (Table.player self') = Player.balance (Table.player self).
Proof.
  induction fuel as [ | fuel IH]; intros self self' w w' stand v0 Ev0 Hv0 H;
    [discriminate H | ].
  cbn [Table.player_turn] in H.
  inv_bind H. clear E. inv_bind H. clear E.
  destruct (String.eqb (Py.lower a0) "h").
  - inv_bind H. apply deal_to_player_hand in E. destruct E as (c & _ & ->).
    inv_bind H. apply or_ValueError_Ret in E. destruct E as [Ev ->].
    destruct (Z.ltb_spec 21 a1) as [Hbust | Hok].
    + rewrite bind_print in H. inv_bind H. rewrite bind_print in H.
      unfold ret in H. injection H as <- <- _. table_simpl.
      exists [c], a1. unfold Hand.add_card in *. cbn [Hand.cards] in *.
      split; [reflexivity | ]. split; [exact Ev | ].
      split; [discriminate | ]. split; [ | split; reflexivity].
      intros _. split; [exact Hbust | ].
      exists [], c, v0. split; [reflexivity | ]. split; [ | exact Hv0].
      rewrite <- Ev0. apply calculate_value_cards. cbn [Hand.cards]. apply app_nil_r.
    + destruct (IH _ _ _ _ _ a1 Ev Hok H)
        as (hits & pv & Hcards & Epv & Hstand & Hbust & Hd & Hb).
      table_simpl. unfold Hand.add_card in *. cbn [Hand.cards] in *.
      exists (c :: hits), pv.
      split; [rewrite Hcards, <- app_assoc; reflexivity | ].
      split; [exact Epv | ]. split; [exact Hstand | ].
      split; [ | split; [exact Hd | exact Hb]].
      intros Hs. destruct (Hbust Hs) as (Hgt & before & c' & v & -> & Ebefore & Hv).
      split; [exact Hgt | ].
      exists (c :: before), c', v. split; [reflexivity | ]. split; [ | exact Hv].
      rewrite <- Ebefore. apply calculate_value_cards. cbn [Hand.cards].
      rewrite <- app_assoc. reflexivity.
  - destruct (String.eqb (Py.lower a0) "s").
    + unfold ret in H. injection H as <- <- _.
      exists [], v0. split; [symmetry; apply app_nil_r | ]. split; [exact Ev0 | ].
      split; [intros _; exact Hv0 | ]. split; [discriminate | split; reflexivity].
    + rewrite bind_print in H. exact (IH _ _ _ _ _ v0 Ev0 Hv0 H).
Qed.

Lemma X7_witness :
  exists (self' : Table.t) (w' : World) (hits : list Card) (pv : Z),
    Table.player_turn 3 fresh_table
      (stacked [card "9" "♦"; card "K" "♥"; card "5" "♣"] (fun n => n) ["h"; "x"; "s"])
    = Ret (true, self') w' /\
    Hand.cards (Player.hand (Table.player self'))
    = Hand.cards (Player.hand (Table.player fresh_table)) ++ hits /\
    Hand.calculate_value (Player.hand (Table.player self')) = Some pv /\
    pv <= 21.
Proof.
  assert (Hrun : exists (self' : Table.t) (w' : World),
             Table.player_turn 3 fresh_table
               (stacked [card "9" "♦"; card "K" "♥"; card "5" "♣"] (fun n => n)
                        ["h"; "x"; "s"])
             = Ret (true, self') w').
  { vm_compute. eexists _, _. reflexivity. }
  destruct Hrun as (self' & w' & Hrun).
  destruct (X7_player_turn_stops_at_the_bust 3 fresh_table self' _ w' true 0
              eq_refl ltac:(discriminate) Hrun)
    as (hits & pv & Hcards & Epv & Hstand & _).
  exists self', w', hits, pv.
  split; [exact Hrun | ]. split; [exact Hcards | ]. split; [exact Epv | ].
  exact (Hstand eq_refl).
Defined.

(** ** The dealer's final value *)

Lemma deal_card_stdin (self : Shoe.t) (w w' : World) (c : Card) :
  Shoe.deal_card self w = Ret c w' -> stdin w' = stdin w.
Proof.
  destruct (pop_last_cases (Shoe_shoe w)) as [[E _] | (x & c0 & E & _)].
  - destruct (deal_card_empty self w E) as (y & pos & _ & Hdeal).
    cbv zeta in Hdeal. rewrite Hdeal.
    destruct (Shoe.pop_last y) as [[c1 y'] | ]; [ | discriminate].
    intros H. injection H as _ <-. reflexivity.
  - rewrite (deal_card_nonempty self w x c0 E).
    intros H. injection H as _ <-. reflexivity.
Qed.

(** One more card on a hand worth less than 17 gives at most 26. *)
Lemma value_after_hit (h : Hand.t) (c : Card) (v : Z) :
  Forall valid_card (Hand.cards h) ->
  valid_card c ->
  Hand.calculate_value h = Some v ->
  v < 17 ->
  exists v' : Z, Hand.calculate_value (Hand.add_card h c) = Some v' /\ v' <= 26.
Proof.
  intros Hv Hc Ev Hlt.
  assert (Hv' : Forall valid_card (Hand.cards (Hand.add_card h c))).
  { cbn [Hand.add_card Hand.cards]. apply Forall_app. split; [exact Hv | now constructor]. }
  rewrite (calculate_value_soft h Hv) in Ev. injection Ev as Ev.
  rewrite (calculate_value_soft _ Hv'). eexists. split; [reflexivity | ].
  cbn [Hand.add_card Hand.cards]. rewrite hard_total_app.
  pose proof (hard_card_at_most_10 c Hc) as Hc10.
  assert (Hhard : hard_total (Hand.cards h) <= v).
  { destruct ((0 <? spec_aces (Hand.cards h))%nat && (hard_total (Hand.cards h) <=? 11));
      lia. }
  destruct ((0 <? spec_aces (Hand.cards h ++ [c]))%nat); cbn [andb]; [ | lia].
  destruct (Z.leb_spec (hard_total (Hand.cards h) + hard_total [c]) 11); lia.
Qed.

Lemma play_turn_Ret_valid (fuel : nat) (shoe : Shoe.t) :
  forall (self d : Dealer.t) (w w' : World),
    Forall valid_card (Shoe_shoe w) ->
    Forall valid_card (Hand.cards (Dealer.hand self)) ->
    Dealer.play_turn fuel self shoe w = Ret d w' ->
    Forall valid_card (Hand.cards (Dealer.hand d)) /\
    Forall valid_card (Shoe_shoe w') /\
    stdin w' = stdin w /\
    forall v0 : Z,
      Hand.calculate_value (Dealer.hand self) = Some v0 ->
      v0 <= 26 ->
      exists v : Z, Hand.calculate_value (Dealer.hand d) = Some v /\ 17 <= v <= 26.
Proof.
  induction fuel as [ | fuel IH]; intros self d w w' Hshoe Hhand H; [discriminate H | ].
  rewrite play_turn_S in H.
  destruct (Hand.calculate_value (Dealer.hand self)) as [v | ] eqn:Ev;
    [ | discriminate H].
  destruct (Z.ltb_spec v 17) as [Hlt | Hge].
  - unfold bind in H.
    destruct (deal_card_cases shoe w Hshoe)
      as [(c & w1 & Edeal & Hc & Hshoe1) | (_ & w1 & Edeal)];
      rewrite Edeal in H; [ | discriminate H].
    pose proof (deal_card_stdin shoe w w1 c Edeal) as Hin.
    assert (Hhand1 : Forall valid_card
                       (Hand.cards (Dealer.hand
                          (Dealer.mk (Hand.add_card (Dealer.hand self) c))))).
    { cbn [Dealer.hand Hand.add_card Hand.cards]. apply Forall_app.
      split; [exact Hhand | now constructor]. }
    destruct (IH _ _ _ _ Hshoe1 Hhand1 H) as (Hd & Hw' & Hin' & Hval).
    split; [exact Hd | ]. split; [exact Hw' | ]. split; [congruence | ].
    intros v0 Ev0 _.
    destruct (value_after_hit (Dealer.hand self) c v Hhand Hc Ev Hlt) as (v1 & Ev1 & Hv1).
    exact (Hval v1 Ev1 Hv1).
  - injection H as Hd Hw. subst d w'.
    split; [exact Hhand | ]. split; [exact Hshoe | ]. split; [reflexivity | ].
    intros v0 Ev0 Hv0. exists v. split; [exact Ev | ].
    assert (v0 = v) by congruence. lia.
Qed.

(** X8. On cards of the shoe's ranks, a dealer whose hand is worth at most
    26 when [play_turn] starts (any two-card hand is) ends it with a value
    between 17 and 26.  [play_turn] reads no input and leaves valid cards in
    the hand and in the shoe. *)
Theorem X8_dealer_ends_between_17_and_26
    (fuel : nat) (shoe : Shoe.t) (self d : Dealer.t) (w w' : World) (v0 : Z) :
  Forall valid_card (Shoe_shoe w) ->
  Forall valid_card (Hand.cards (Dealer.hand self)) ->
  Hand.calculate_value (Dealer.hand self) = Some v0 ->
  v0 <= 26 ->
  Dealer.play_turn fuel self shoe w = Ret d w' ->
  (exists v : Z, Hand.calculate_value (Dealer.hand d) = Some v /\ 17 <= v <= 26) /\
  Forall valid_card (Hand.cards (Dealer.hand d)) /\
  Forall valid_card (Shoe_shoe w') /\
  stdin w' = stdin w.
Proof.
  intros Hshoe Hhand Ev0 Hv0 Hrun.
  destruct (play_turn_Ret_valid fuel shoe self d w w' Hshoe Hhand Hrun)
    as (Hd & Hw' & Hin & Hval).
  split; [exact (Hval v0 Ev0 Hv0) | ].
  split; [exact Hd | split; [exact Hw' | exact Hin]].
Qed.

Lemma X8_witness :
  exists (d : Dealer.t) (w' : World) (v : Z),
    Dealer.play_turn 3 (Dealer.mk (Hand.mk [card "10" "♣"; card "6" "♦"])) (Shoe.mk 6)
      (stacked [card "2" "♥"; card "K" "♦"] (fun n => n) []) = Ret d w' /\
    Hand.calculate_value (Dealer.hand d) = Some v /\ 17 <= v <= 26.
Proof.
  assert (Hrun : exists (d : Dealer.t) (w' : World),
             Dealer.play_turn 3 (Dealer.mk (Hand.mk [card "10" "♣"; card "6" "♦"]))
               (Shoe.mk 6) (stacked [card "2" "♥"; card "K" "♦"] (fun n => n) [])
             = Ret d w').
  { vm_compute. eexists _, _. reflexivity. }
  destruct Hrun as (d & w' & Hrun).
  assert (Hshoe : Forall valid_card
                    (Shoe_shoe (stacked [card "2" "♥"; card "K" "♦"] (fun n => n) []))).
  { repeat apply Forall_cons; try apply Forall_nil; unfold valid_card; simpl; tauto. }
  assert (Hhand : Forall valid_card
                    (Hand.cards (Dealer.hand
                       (Dealer.mk (Hand.mk [card "10" "♣"; card "6" "♦"]))))).
  { repeat apply Forall_cons; try apply Forall_nil; unfold valid_card; simpl; tauto. }
  destruct (X8_dealer_ends_between_17_and_26 3 (Shoe.mk 6) _ d _ w' 16
              Hshoe Hhand eq_refl ltac:(discriminate) Hrun)
    as ((v & Ev & Hv) & _).
  exists d, w', v. split; [exact Hrun | split; [exact Ev | exact Hv]].
Defined.

(** ** The initial deal *)


Lemma place_bet_shoe (fuel : nat) (self : Player.t) :
  forall (w w' : World) (bet : Z),
    Player.place_bet fuel self w = Ret bet w' -> Shoe_shoe w' = Shoe_shoe w.
Proof.
  induction fuel as [ | fuel IH]; intros w w' bet Hrun; [discriminate Hrun | ].
  rewrite place_bet_S in Hrun.
  destruct (stdin w) as [ | line rest]; [discriminate Hrun | ].
  cbv zeta in Hrun.
  destruct (Py.int line) as [b | ]; [ | exact (IH _ _ _ Hrun)].
  destruct (b <? 1); [exact (IH _ _ _ Hrun) | ].
  destruct (Player.balance self <? b); [exact (IH _ _ _ Hrun) | ].
  injection Hrun as _ <-. reflexivity.
Qed.

Lemma player_turn_hits (fuel : nat) :
  forall (self self' : Table.t) (w w' : World) (stand : bool),
    Table.player_turn fuel self w = Ret (stand, self') w' ->
    Table.dealer self' = Table.dealer self /\
    Table.shoe self' = Table.shoe self /\
    exists hits : list Card,
      Hand.cards (Player.hand (Table.player self'))
      = Hand.cards (Player.hand (Table.player self)) ++ hits.
Proof.
  induction fuel as [ | fuel IH]; intros self self' w w' stand H; [discriminate H | ].
  cbn [Table.player_turn] in H.
  inv_bind H. clear E. inv_bind H. clear E.
  destruct (String.eqb (Py.lower a0) "h").
  - inv_bind H. apply deal_to_player_hand in E. destruct E as (c & _ & ->).
    inv_bind H. clear E.
    destruct (21 <? a1).
    + rewrite bind_print in H. inv_bind H. rewrite bind_print in H.
      unfold ret in H. injection H as <- <- _.
      split; [reflexivity | ]. split; [reflexivity | ].
      exists [c]. reflexivity.
    + destruct (IH _ _ _ _ _ H) as (Hd & Hs & hits & Hcards).
      split; [exact Hd | ]. split; [exact Hs | ].
      exists (c :: hits). rewrite Hcards. table_simpl.
      unfold Hand.add_card. cbn [Hand.cards]. rewrite <- app_assoc. reflexivity.
  - destruct (String.eqb (Py.lower a0) "s").
    + unfold ret in H. injection H as <- <- _.
      split; [reflexivity | ]. split; [reflexivity | ].
      exists []. symmetry. apply app_nil_r.
    + rewrite bind_print in H. exact (IH _ _ _ _ _ H).
Qed.

(** X9. The round deals first to the player, then the dealer, then the
    player, then the dealer: when the shoe's list ends with [d2; p2; d1; p1]
    and the round returns, the player's hand has gained [p1; p2] followed by
    the hits, and the dealer's hand [d1; d2] followed by the dealer's
    draws.  Hands only grow during a round. *)
Theorem X9_initial_deal_alternates
    (fuel : nat) (self self' : Table.t) (w w' : World) (x : list Card)
    (p1 d1 p2 d2 : Card) :
  Shoe_shoe w = x ++ [d2; p2; d1; p1] ->
  Table.play_round fuel self w = Ret self' w' ->
  exists hits draws : list Card,
    Hand.cards (Player.hand (Table.player self'))
    = Hand.cards (Player.hand (Table.player self)) ++ p1 :: p2 :: hits /\
    Hand.cards (Dealer.hand (Table.dealer self'))
    = Hand.cards (Dealer.hand (Table.dealer self)) ++ d1 :: d2 :: draws.
Proof.
  intros Eshoe H. unfold Table.play_round in H.
  inv_bind_as H bet wb Eb. apply place_bet_shoe in Eb. cbv zeta in H.
  inv_bind_as H t1 w1 E1. apply deal_to_player_hand in E1. destruct E1 as (c1 & Ec1 & ->).
  rewrite (deal_card_nonempty _ wb (x ++ [d2; p2; d1]) p1) in Ec1
    by (rewrite Eb, Eshoe, <- app_assoc; reflexivity).
  injection Ec1 as <- <-. table_simpl.
  inv_bind_as H t2 w2 E2. apply deal_to_dealer_hand in E2. destruct E2 as (c2 & Ec2 & ->).
  rewrite (deal_card_nonempty _ _ (x ++ [d2; p2]) d1) in Ec2
    by (cbn [set_shoe Shoe_shoe]; rewrite <- app_assoc; reflexivity).
  injection Ec2 as <- <-. table_simpl.
  inv_bind_as H t3 w3 E3. apply deal_to_player_hand in E3. destruct E3 as (c3 & Ec3 & ->).
  rewrite (deal_card_nonempty _ _ (x ++ [d2]) p2) in Ec3
    by (cbn [set_shoe Shoe_shoe]; rewrite <- app_assoc; reflexivity).
  injection Ec3 as <- <-. table_simpl.
  inv_bind_as H t4 w4 E4. apply deal_to_dealer_hand in E4. destruct E4 as (c4 & Ec4 & ->).
  rewrite (deal_card_nonempty _ _ x d2) in Ec4
    by (cbn [set_shoe Shoe_shoe]; reflexivity).
  injection Ec4 as <- <-. table_simpl.
  inv_bind_as H r w5 E5. destruct r as [stand self5].
  apply player_turn_hits in E5. destruct E5 as (Hd5 & _ & hits & Hp5).
  table_simpl. unfold Hand.add_card in *. cbn [Hand.cards] in *.
  assert (Hplayer : Hand.cards (Player.hand (Table.player self5))
                    = Hand.cards (Player.hand (Table.player self)) ++ p1 :: p2 :: hits).
  { rewrite Hp5, <- !app_assoc. reflexivity. }
  assert (Hdealer : Hand.cards (Dealer.hand (Table.dealer self5))
                    = Hand.cards (Dealer.hand (Table.dealer self)) ++ [d1; d2]).
  { rewrite Hd5. cbn [Dealer.hand Hand.cards]. rewrite <- app_assoc. reflexivity. }
  destruct stand.
  - rewrite bind_print in H. inv_bind_as H d w6 E6. cbv zeta in H.
    apply play_turn_returns in E6. destruct E6 as (draws & _ & Hdraws & _).
    inv_bind_as H u w7 E7. clear E7. inv_bind_as H result w8 E8. clear E8.
    rewrite bind_print in H.
    exists hits, draws.
    assert (Hself' : Hand.cards (Player.hand (Table.player self'))
                     = Hand.cards (Player.hand (Table.player self5)) /\
                     Table.dealer self' = d).
    { destruct (Py.contains "You win" result).
      - rewrite bind_print in H. unfold ret in H. injection H as <- _.
        split; reflexivity.
      - destruct (Py.contains "It's a tie" result);
          rewrite bind_print in H; unfold ret in H; injection H as <- _;
          split; reflexivity. }
    destruct Hself' as [-> ->].
    split; [exact Hplayer | rewrite Hdraws, Hdealer, <- app_assoc; reflexivity].
  - rewrite bind_print in H. unfold ret in H. injection H as <- _.
    exists hits, []. split; [exact Hplayer | exact Hdealer].
Qed.

Lemma X9_witness :
  exists (self' : Table.t) (w' : World) (hits draws : list Card),
    Table.play_round 3 fresh_table
      (stacked [card "K" "♦"; card "6" "♦"; card "2" "♥"; card "10" "♣"; card "10" "♠"]
               (fun n => n) ["10"; "s"]) = Ret self' w' /\
    Hand.cards (Player.hand (Table.player self'))
    = Hand.cards (Player.hand (Table.player fresh_table))
      ++ card "10" "♠" :: card "2" "♥" :: hits /\
    Hand.cards (Dealer.hand (Table.dealer self'))
    = Hand.cards (Dealer.hand (Table.dealer fresh_table))
      ++ card "10" "♣" :: card "6" "♦" :: draws.
Proof.
  assert (Hrun : exists (self' : Table.t) (w' : World),
             Table.play_round 3 fresh_table
               (stacked [card "K" "♦"; card "6" "♦"; card "2" "♥"; card "10" "♣";
                         card "10" "♠"]
                        (fun n => n) ["10"; "s"]) = Ret self' w').
  { vm_compute. eexists _, _. reflexivity. }
  destruct Hrun as (self' & w' & Hrun).
  destruct (X9_initial_deal_alternates 3 fresh_table self'
              (stacked [card "K" "♦"; card "6" "♦"; card "2" "♥"; card "10" "♣";
                        card "10" "♠"]
                       (fun n => n) ["10"; "s"])
              w' [card "K" "♦"]
              (card "10" "♠") (card "10" "♣") (card "2" "♥") (card "6" "♦")
              eq_refl Hrun) as (hits & draws & Hp & Hd).
  exists self', w', hits, draws.
  split; [exact Hrun | split; [exact Hp | exact Hd]].
Defined.

(** ** The balance over rounds and sessions *)

Lemma play_round_balance (fuel : nat) (self self' : Table.t) (w w' : World) :
  Table.play_round fuel self w = Ret self' w' ->
  exists bet : Z,
    1 <= bet <= Player.balance (Table.player self) /\
    (Player.balance (Table.player self') = Player.balance (Table.player self) - bet \/
     Player.balance (Table.player self') = Player.balance (Table.player self) \/
     Player.balance (Table.player self') = Player.balance (Table.player self) + bet).
Proof.
  intros Hrun.
  destruct (play_round_Ret fuel self self' w w' Hrun)
    as (bet & pv & Hbet & _ & Hbust & Hplay).
  exists bet. split; [exact Hbet | ].
  destruct (Z_lt_le_dec 21 pv) as [Hgt | Hle]; [left; exact (Hbust Hgt) | ].
  destruct (Hplay Hle) as (dv & _ & Hwin & Hpush & Hlose).
  destruct (Z_lt_le_dec 21 dv) as [Hd | Hd];
    [right; right; rewrite (Hwin (or_introl Hd)); lia | ].
  destruct (Z_lt_le_dec dv pv) as [Hc | Hc];
    [right; right; rewrite (Hwin (or_intror Hc)); lia | ].
  destruct (Z.eq_dec dv pv) as [He | Hne];
    [right; left; rewrite (Hpush Hd He); lia | ].
  left. apply (Hlose Hd). lia.
Qed.

(** X10. A round that returns started from a balance of at least 1 and
    moved it by exactly the bet down, by nothing, or by the bet up, for one
    bet between 1 and the balance: the balance never becomes negative and at
    most doubles in a round. *)
Theorem X10_round_moves_balance_by_the_bet
    (fuel : nat) (self self' : Table.t) (w w' : World) :
  Table.play_round fuel self w = Ret self' w' ->
  1 <= Player.balance (Table.player self) /\
  0 <= Player.balance (Table.player self') <= 2 * Player.balance (Table.player self) /\
  exists bet : Z,
    1 <= bet <= Player.balance (Table.player self) /\
    (Player.balance (Table.player self') = Player.balance (Table.player self) - bet \/
     Player.balance (Table.player self') = Player.balance (Table.player self) \/
     Player.balance (Table.player self') = Player.balance (Table.player self) + bet).
Proof.
  intros Hrun.
  destruct (play_round_balance fuel self self' w w' Hrun) as (bet & Hbet & Hcases).
  split; [lia | ]. split; [destruct Hcases as [-> | [-> | ->]]; lia | ].
  exists bet. split; [exact Hbet | exact Hcases].
Qed.

Lemma X10_witness :
  exists (self' : Table.t) (w' : World),
    Table.play_round 3 fresh_table
      (stacked [card "9" "♦"; card "Q" "♥"; card "10" "♣"; card "K" "♠"]
               (fun n => n) ["10"; "s"]) = Ret self' w' /\
    0 <= Player.balance (Table.player self')
      <= 2 * Player.balance (Table.player fresh_table).
Proof.
  assert (Hrun : exists (self' : Table.t) (w' : World),
             Table.play_round 3 fresh_table
               (stacked [card "9" "♦"; card "Q" "♥"; card "10" "♣"; card "K" "♠"]
                        (fun n => n) ["10"; "s"]) = Ret self' w').
  { vm_compute. eexists _, _. reflexivity. }
  destruct Hrun as (self' & w' & Hrun).
  exists self', w'. split; [exact Hrun | ].
  exact (proj1 (proj2 (X10_round_moves_balance_by_the_bet 3 fresh_table self' _ w' Hrun))).
Defined.

(** X11. The session loop returns in one of three ways only: at once,
    without any console activity, when the balance is not positive on entry;
    with the balance at 0 and the out-of-money line last on the console; or
    with a positive balance after a line that does not lower-case to y, the
    line reporting that balance last on the console.  It never ends a
    session while the player has money and answers y. *)
Theorem X11_session_ends_broke_or_declined (fuel : nat) :
  forall (self self' : Table.t) (w w' : World),
    Table.play_table_loop fuel self w = Ret self' w' ->
    (Player.balance (Table.player self) <= 0 /\ self' = self /\ w' = w) \/
    (Player.balance (Table.player self') = 0 /\
     exists out : list Event,
       console w' = out ++ [Printed (Py.nl ++ "You're out of money! Game over.")%string]) \/
    (0 < Player.balance (Table.player self') /\
     exists (out : list Event) (line : string),
       Py.lower line <> "y" /\
       console w' =
         out ++ [Typed line;
                 Printed (Py.nl ++ "Thanks for playing! You leave with $"
                          ++ Py.str (Player.balance (Table.player self')) ++ ".")%string]).
Proof.
  induction fuel as [ | fuel IH]; intros self self' w w' H; [discriminate H | ].
  destruct (Z_lt_le_dec 0 (Player.balance (Table.player self))) as [Hpos | Hle].
  - right. pose proof H as H0. cbn [Table.play_table_loop] in H0.
    destruct (Z.ltb_spec 0 (Player.balance (Table.player self))); [ | lia].
    apply bind_Ret in H0. destruct H0 as (self1 & w1 & Hround & _).
    rewrite (play_table_loop_S fuel self self1 w w1 Hpos Hround) in H.
    destruct (play_round_balance fuel self self1 w w1 Hround) as (bet & Hbet & Hcases).
    assert (Hnonneg : 0 <= Player.balance (Table.player self1))
      by (destruct Hcases as [-> | [-> | ->]]; lia).
    destruct (Z.eqb_spec (Player.balance (Table.player self1)) 0) as [Hzero | Hnz].
    + injection H as <- <-. left. split; [exact Hzero | ].
      eexists. reflexivity.
    + destruct (stdin w1) as [ | line rest]; [discriminate H | ].
      destruct (String.eqb_spec (Py.lower line) "y") as [Hy | Hn].
      * destruct (IH _ _ _ _ H) as [(Hbal & _ & _) | Hdone]; [ | exact Hdone].
        unfold reset_hands in Hbal. table_simpl. lia.
      * injection H as <- <-. right. split; [lia | ].
        exists (console w1 ++ [Prompted continue_prompt]), line.
        split; [exact Hn | ].
        unfold after_input, log. cbn [console]. rewrite <- !app_assoc. reflexivity.
  - left. cbn [Table.play_table_loop] in H.
    destruct (Z.ltb_spec 0 (Player.balance (Table.player self))); [lia | ].
    unfold ret in H. injection H as <- <-. repeat split. exact Hle.
Qed.

Lemma X11_witness :
  exists (self' : Table.t) (w' : World),
    Table.play_table_loop 3 fresh_table
      (stacked [card "10" "♦"; card "8" "♥"; card "9" "♣"; card "10" "♠"]
               (fun n => n) ["40"; "s"; "no"; "60"]) = Ret self' w' /\
    0 < Player.balance (Table.player self') /\
    exists (out : list Event) (line : string),
      Py.lower line <> "y" /\
      console w' =
        out ++ [Typed line;
                Printed (Py.nl ++ "Thanks for playing! You leave with $"
                         ++ Py.str (Player.balance (Table.player self')) ++ ".")%string].
Proof.
  assert (Hrun : exists (self' : Table.t) (w' : World),
             Table.play_table_loop 3 fresh_table
               (stacked [card "10" "♦"; card "8" "♥"; card "9" "♣"; card "10" "♠"]
                        (fun n => n) ["40"; "s"; "no"; "60"]) = Ret self' w' /\
             Player.balance (Table.player self') = 60).
  { vm_compute. eexists _, _. split; reflexivity. }
  destruct Hrun as (self' & w' & Hrun & Hbal).
  exists self', w'. split; [exact Hrun | ].
  destruct (X11_session_ends_broke_or_declined 3 fresh_table self' _ w' Hrun)
    as [(Hle & _ & _) | [(Hzero & _) | Hdeclined]].
  - exfalso. revert Hle. vm_compute. intros Hle. apply Hle. reflexivity.
  - exfalso. rewrite Hbal in Hzero. discriminate Hzero.
  - exact Hdeclined.
Defined.

(** ** The program raises nothing but [EOFError] *)

Lemma bind_ret {A B} (a : A) (k : A -> M B) (w : World) : bind (ret a) k w = k a w.
Proof. reflexivity. Qed.

Lemma deal_to_player_valid (t : Table.t) (w : World) :
  valid_table t ->
  Forall valid_card (Shoe_shoe w) ->
  exists (t' : Table.t) (w' : World),
    Table.deal_to_player t w = Ret t' w' /\
    valid_table t' /\
    Forall valid_card (Shoe_shoe w') /\
    stdin w' = stdin w.
Proof.
  intros (Hdeck & Hp & Hd) Hshoe.
  destruct (deal_card_returns (Table.shoe t) w Hdeck) as (c & w' & Hdeal & Hin & Hvalid).
  destruct (Hvalid Hshoe) as [Hc Hshoe'].
  unfold Table.deal_to_player. rewrite (bind_Ret_eq _ _ _ _ _ Hdeal). unfold ret.
  eexists _, _. split; [reflexivity | ]. split; [ | split; [exact Hshoe' | exact Hin]].
  unfold valid_table. table_simpl. unfold Hand.add_card. cbn [Hand.cards].
  split; [exact Hdeck | ]. split; [ | exact Hd].
  apply Forall_app. split; [exact Hp | now constructor].
Qed.

Lemma deal_to_dealer_valid (t : Table.t) (w : World) :
  valid_table t ->
  Forall valid_card (Shoe_shoe w) ->
  exists (t' : Table.t) (w' : World),
    Table.deal_to_dealer t w = Ret t' w' /\
    valid_table t' /\
    Forall valid_card (Shoe_shoe w') /\
    stdin w' = stdin w.
Proof.
  intros (Hdeck & Hp & Hd) Hshoe.
  destruct (deal_card_returns (Table.shoe t) w Hdeck) as (c & w' & Hdeal & Hin & Hvalid).
  destruct (Hvalid Hshoe) as [Hc Hshoe'].
  unfold Table.deal_to_dealer. rewrite (bind_Ret_eq _ _ _ _ _ Hdeal). unfold ret.
  eexists _, _. split; [reflexivity | ]. split; [ | split; [exact Hshoe' | exact Hin]].
  unfold valid_table. table_simpl. unfold Hand.add_card. cbn [Hand.cards].
  split; [exact Hdeck | ]. split; [exact Hp | ].
  apply Forall_app. split; [exact Hd | now constructor].
Qed.

Lemma player_turn_ends_well (fuel : nat) :
  forall (t : Table.t) (w : World),
    valid_table t ->
    Forall valid_card (Shoe_shoe w) ->
    (List.length (stdin w) < fuel)%nat ->
    ends_well
      (fun r w' =>
         valid_table (snd r) /\
         Forall valid_card (Shoe_shoe w') /\
         (List.length (stdin w') < List.length (stdin w))%nat)
      (Table.player_turn fuel t w).
Proof.
  induction fuel as [ | fuel IH]; intros t w Ht Hshoe Hfuel; [lia | ].
  cbn [Table.player_turn].
  destruct (display_hands_valid t true w (proj1 (proj2 Ht)) ltac:(discriminate))
    as (w1 & Edisp & Hshoe1 & Hin1).
  rewrite (bind_Ret_eq _ _ _ _ _ Edisp).
  unfold bind at 1. rewrite input_spec, Hin1.
  destruct (stdin w) as [ | line rest] eqn:Ein; [reflexivity | ].
  cbn [List.length] in Hfuel |- *.
  set (w2 := after_input "Do you want to hit or stand? (h/s): " line rest w1).
  assert (Hshoe2 : Forall valid_card (Shoe_shoe w2)) by (cbn; rewrite Hshoe1; exact Hshoe).
  assert (Hin2 : stdin w2 = rest) by reflexivity.
  destruct (String.eqb (Py.lower line) "h").
  - destruct (deal_to_player_valid t w2 Ht Hshoe2) as (t3 & w3 & Edeal & Ht3 & Hshoe3 & Hin3).
    rewrite (bind_Ret_eq _ _ _ _ _ Edeal).
    rewrite (calculate_value_valid _ (proj1 (proj2 Ht3))). cbn [or_ValueError].
    rewrite bind_ret.
    destruct (21 <? _).
    + rewrite bind_print.
      destruct (print_hand_valid (Player.hand (Table.player t3))
                  (log (Printed (Py.nl ++ "Your hand:")%string) w3) (proj1 (proj2 Ht3)))
        as (s & Es).
      rewrite (bind_Ret_eq _ _ _ _ _ Es), bind_print. unfold ret.
      cbn [ends_well snd log Shoe_shoe stdin].
      split; [exact Ht3 | ]. split; [exact Hshoe3 | ]. rewrite Hin3, Hin2. lia.
    + eapply ends_well_weaken; [apply (IH t3 w3 Ht3 Hshoe3); rewrite Hin3, Hin2; lia | ].
      cbn beta. intros r w' (Hr & Hw' & Hlen).
      split; [exact Hr | ]. split; [exact Hw' | ]. rewrite Hin3, Hin2 in Hlen. lia.
  - destruct (String.eqb (Py.lower line) "s").
    + unfold ret. cbn [ends_well snd].
      split; [exact Ht | ]. split; [exact Hshoe2 | ]. rewrite Hin2. lia.
    + rewrite bind_print.
      eapply ends_well_weaken.
      * apply (IH t _ Ht); cbn [log Shoe_shoe stdin]; [exact Hshoe2 | rewrite Hin2; lia].
      * cbn beta. cbn [log stdin]. intros r w' (Hr & Hw' & Hlen).
        split; [exact Hr | ]. split; [exact Hw' | ]. rewrite Hin2 in Hlen. lia.
Qed.

Lemma play_turn_total (fuel : nat) (self : Dealer.t) (shoe : Shoe.t) (w : World) :
  1 <= Shoe.deck_count shoe ->
  Forall valid_card (Shoe_shoe w) ->
  Forall valid_card (Hand.cards (Dealer.hand self)) ->
  (18 <= fuel)%nat ->
  exists (d : Dealer.t) (w' : World),
    Dealer.play_turn fuel self shoe w = Ret d w' /\
    Forall valid_card (Hand.cards (Dealer.hand d)) /\
    Forall valid_card (Shoe_shoe w') /\
    stdin w' = stdin w.
Proof.
  intros Hdeck Hshoe Hhand Hfuel.
  destruct (play_turn_bounded shoe 17 fuel self w Hshoe Hhand)
    as [(d & w' & drawn & Hrun & _) | (Hd0 & _)]; [ | lia | | lia].
  - pose proof (hard_total_nonneg _ Hhand). lia.
  - destruct (play_turn_Ret_valid fuel shoe self d w w' Hshoe Hhand Hrun)
      as (Hd & Hw' & Hin & _).
    exists d, w'. split; [exact Hrun | ]. split; [exact Hd | split; [exact Hw' | exact Hin]].
Qed.

Lemma play_round_ends_well (fuel : nat) (t : Table.t) (w : World) :
  valid_table t ->
  Forall valid_card (Shoe_shoe w) ->
  (List.length (stdin w) < fuel)%nat ->
  (18 <= fuel)%nat ->
  ends_well
    (fun t' w' =>
       valid_table t' /\
       Forall valid_card (Shoe_shoe w') /\
       (List.length (stdin w') < List.length (stdin w))%nat)
    (Table.play_round fuel t w).
Proof.
  intros Ht Hshoe Hfuel H18. unfold Table.play_round.
  eapply ends_well_bind; [apply (place_bet_ends_well fuel (Table.player t) w Hfuel) | ].
  cbn beta. intros bet w0 (_ & Hshoe0 & Hlen0). cbv zeta.
  assert (Ht0 : valid_table (Table.credit t (- bet))) by exact Ht.
  rewrite <- Hshoe0 in Hshoe.
  destruct (deal_to_player_valid _ w0 Ht0 Hshoe) as (t1 & w1 & E1 & Ht1 & Hs1 & Hi1).
  rewrite (bind_Ret_eq _ _ _ _ _ E1).
  destruct (deal_to_dealer_valid _ w1 Ht1 Hs1) as (t2 & w2 & E2 & Ht2 & Hs2 & Hi2).
  rewrite (bind_Ret_eq _ _ _ _ _ E2).
  destruct (deal_to_player_valid _ w2 Ht2 Hs2) as (t3 & w3 & E3 & Ht3 & Hs3 & Hi3).
  rewrite (bind_Ret_eq _ _ _ _ _ E3).
  destruct (deal_to_dealer_valid _ w3 Ht3 Hs3) as (t4 & w4 & E4 & Ht4 & Hs4 & Hi4).
  rewrite (bind_Ret_eq _ _ _ _ _ E4).
  assert (Hi : stdin w4 = stdin w0) by congruence.
  eapply ends_well_bind.
  { apply (player_turn_ends_well fuel t4 w4 Ht4 Hs4). rewrite Hi. lia. }
  cbn beta. intros [stand t5] w5 (Ht5 & Hs5 & Hlen5). cbn [snd] in Ht5.
  rewrite Hi in Hlen5.
  destruct stand.
  - rewrite bind_print.
    destruct Ht5 as (Hdeck5 & Hp5 & Hd5).
    destruct (play_turn_total fuel (Table.dealer t5) (Table.shoe t5)
                (log (Printed (Py.nl ++ "Dealer's turn:")%string) w5)
                Hdeck5 Hs5 Hd5 H18) as (d & w6 & E6 & Hd6 & Hs6 & Hi6).
    rewrite (bind_Ret_eq _ _ _ _ _ E6). cbv zeta.
    assert (Ht6 : valid_table (Table.set_dealer t5 d)).
    { split; [exact Hdeck5 | split; [exact Hp5 | exact Hd6]]. }
    destruct (display_hands_valid (Table.set_dealer t5 d) false w6 Hp5 (fun _ => Hd6))
      as (w7 & E7 & Hs7 & Hi7).
    rewrite (bind_Ret_eq _ _ _ _ _ E7).
    rewrite (bind_Ret_eq _ _ _ _ _
               (determine_winner_spec (Table.set_dealer t5 d) w7 _ _
                  (calculate_value_valid _ Hp5) (calculate_value_valid _ Hd6))).
    rewrite bind_print.
    assert (Hfinal : Forall valid_card (Shoe_shoe w7) /\
                     (List.length (stdin w7) < List.length (stdin w))%nat).
    { rewrite Hs7, Hi7, Hi6. cbn [log stdin]. split; [exact Hs6 | lia]. }
    destruct Hfinal as [Hs Hl].
    destruct (Py.contains "You win" _); [ | destruct (Py.contains "It's a tie" _)];
      rewrite bind_print; unfold ret; cbn [ends_well log Shoe_shoe stdin];
      (split; [exact Ht6 | split; [exact Hs | exact Hl]]).
  - rewrite bind_print. unfold ret. cbn [ends_well log Shoe_shoe stdin].
    split; [exact Ht5 | ]. split; [exact Hs5 | lia].
Qed.

Lemma ends_well_and {A} (Q Q' : A -> World -> Prop) (o : Outcome A) :
  ends_well Q o ->
  (forall a w', o = Ret a w' -> Q' a w') ->
  ends_well (fun a w' => Q a w' /\ Q' a w') o.
Proof.
  destruct o as [a w' | e w' | ]; cbn [ends_well]; auto.
Qed.

Lemma play_table_loop_ends_well (fuel : nat) :
  forall (t : Table.t) (w : World),
    valid_table t ->
    Forall valid_card (Shoe_shoe w) ->
    0 <= Player.balance (Table.player t) ->
    (List.length (stdin w) + 19 <= fuel)%nat ->
    ends_well (fun t' _ => 0 <= Player.balance (Table.player t'))
              (Table.play_table_loop fuel t w).
Proof.
  induction fuel as [ | fuel IH]; intros t w Ht Hshoe Hbal Hfuel; [lia | ].
  cbn [Table.play_table_loop].
  destruct (Z.ltb_spec 0 (Player.balance (Table.player t))); [ | exact Hbal].
  eapply ends_well_bind.
  { apply ends_well_and.
    - apply (play_round_ends_well fuel t w Ht Hshoe); lia.
    - intros t1 w1 Hround. exact (play_round_balance fuel t t1 w w1 Hround). }
  cbn beta. intros t1 w1 ((Ht1 & Hs1 & Hlen1) & bet & Hbet & Hcases).
  assert (Hbal1 : 0 <= Player.balance (Table.player t1))
    by (destruct Hcases as [-> | [-> | ->]]; lia).
  destruct (Player.balance (Table.player t1) =? 0).
  - rewrite bind_print. exact Hbal1.
  - unfold bind at 1. rewrite input_spec.
    destruct (stdin w1) as [ | line rest] eqn:Ein; [reflexivity | ].
    destruct (negb (String.eqb (Py.lower line) "y")).
    + rewrite bind_print. exact Hbal1.
    + apply IH.
      * destruct Ht1 as (Hdeck & _ & _). split; [exact Hdeck | ].
        split; apply Forall_nil.
      * exact Hs1.
      * exact Hbal1.
      * unfold after_input. cbn [log stdin].
        cbn [List.length] in Hlen1. lia.
Qed.

(** X12. The whole program, on any shuffle outcomes and any finite input:
    it runs to its end or stops on [EOFError] when the input runs out.  It
    never raises [ValueError] from [int] or [IndexError] from [pop], none of
    its loops runs forever (a loop bound above the number of input lines
    plus 18 is never reached), and when it returns the balance is not
    negative. *)
Theorem X12_program_raises_only_at_end_of_input
    (rnd : nat -> nat) (lines : list string) (fuel : nat) :
  (List.length lines + 19 <= fuel)%nat ->
  match main fuel (initial_world rnd lines) with
  | Ret t _ => 0 <= Player.balance (Table.player t)
  | Raise e _ => e = Py.EOFError
  | OutOfFuel => False
  end.
Proof.
  intros Hfuel.
  destruct (init_spec 6 (initial_world rnd lines)) as (x & pos & Einit & Hp).
  assert (Etable : Table.init (initial_world rnd lines)
                   = Ret fresh_table
                       (mkWorld x (rand (initial_world rnd lines)) pos
                          (stdin (initial_world rnd lines))
                          (console (initial_world rnd lines)))).
  { unfold Table.init. rewrite (bind_Ret_eq _ _ _ _ _ Einit). reflexivity. }
  unfold main. rewrite (bind_Ret_eq _ _ _ _ _ Etable).
  unfold Table.play_table. rewrite !bind_print.
  change (match ?o with
          | Ret t _ => 0 <= Player.balance (Table.player t)
          | Raise e _ => e = Py.EOFError
          | OutOfFuel => False
          end)
    with (ends_well (fun t (_ : World) => 0 <= Player.balance (Table.player t)) o).
  apply play_table_loop_ends_well.
  - split; [discriminate | split; apply Forall_nil].
  - cbn [log Shoe_shoe initial_world].
    eapply Permutation_Forall; [symmetry; exact Hp | ].
    cbn [initial_world Shoe_shoe app]. apply decks_valid.
  - discriminate.
  - cbn [log stdin initial_world]. exact Hfuel.
Qed.

Lemma X12_witness :
  (List.length ["100"; "s"; "y"; "50"] + 19 <= 23)%nat /\
  match main 23 (initial_world (fun n => S n) ["100"; "s"; "y"; "50"]) with
  | Ret t _ => 0 <= Player.balance (Table.player t)
  | Raise e _ => e = Py.EOFError
  | OutOfFuel => False
  end.
Proof.
  assert (Hfuel : (List.length ["100"; "s"; "y"; "50"] + 19 <= 23)%nat)
    by (apply Nat.le_refl).
  split; [exact Hfuel | ].
  exact (X12_program_raises_only_at_end_of_input (fun n => S n)
           ["100"; "s"; "y"; "50"] 23 Hfuel).
Defined.

(** ** What a deal and a new table do to the process *)

(** X13. Every returning [deal_card] is one of two kinds.  From a shoe
    that holds a card it hands out the last card of the list and changes
    nothing else: no reshuffle, no random number drawn, nothing printed.
    From an empty shoe it prints the reshuffle notice once, and the card it
    returns together with the cards it leaves are a rearrangement of
    [deck_count] fresh decks. *)
Theorem X13_deal_card_either_pops_or_refills
    (self : Shoe.t) (w w' : World) (c : Card) :
  Shoe.deal_card self w = Ret c w' ->
  (Shoe_shoe w = Shoe_shoe w' ++ [c] /\
   console w' = console w /\ rand_pos w' = rand_pos w /\ stdin w' = stdin w) \/
  (Shoe_shoe w = [] /\
   Permutation (Shoe_shoe w' ++ [c]) (decks (Z.to_nat (Shoe.deck_count self))) /\
   console w' = console w ++ [Printed "Shoe was empty, reshuffled."] /\
   stdin w' = stdin w).
Proof.
  intros Hdeal.
  destruct (pop_last_cases (Shoe_shoe w)) as [[E _] | (x & c0 & E & _)].
  - right. destruct (deal_card_empty self w E) as (y & pos & Hy & Hrun).
    cbv zeta in Hrun. rewrite Hrun in Hdeal.
    destruct (pop_last_cases y) as [[Ey Hpop] | (y' & c1 & Ey & Hpop)];
      rewrite Hpop in Hdeal; [discriminate Hdeal | ].
    injection Hdeal as <- <-. world_simpl.
    split; [exact E | ]. split; [rewrite <- Ey; exact Hy | ].
    split; reflexivity.
  - left. rewrite (deal_card_nonempty self w x c0 E) in Hdeal.
    injection Hdeal as <- <-. world_simpl.
    split; [exact E | ]. repeat split.
Qed.

Lemma X13_witness :
  exists (c : Card) (w' : World),
    Shoe.deal_card (Shoe.mk 1) (initial_world (fun n => n) []) = Ret c w' /\
    ((Shoe_shoe (initial_world (fun n => n) []) = Shoe_shoe w' ++ [c] /\
      console w' = console (initial_world (fun n => n) []) /\
      rand_pos w' = rand_pos (initial_world (fun n => n) []) /\
      stdin w' = stdin (initial_world (fun n => n) [])) \/
     (Shoe_shoe (initial_world (fun n => n) []) = [] /\
      Permutation (Shoe_shoe w' ++ [c]) (decks (Z.to_nat (Shoe.deck_count (Shoe.mk 1)))) /\
      console w' = console (initial_world (fun n => n) [])
                   ++ [Printed "Shoe was empty, reshuffled."] /\
      stdin w' = stdin (initial_world (fun n => n) []))).
Proof.
  destruct (deal_card_returns (Shoe.mk 1) (initial_world (fun n => n) []))
    as (c & w' & Hdeal & _); [discriminate | ].
  exists c, w'. split; [exact Hdeal | ].
  exact (X13_deal_card_either_pops_or_refills (Shoe.mk 1) _ w' c Hdeal).
Defined.

(** X14. [Table()] always returns: it adds six standard decks, 312 cards,
    to the class list (each of the 52 combinations six more times), shuffles
    the whole list, and yields a table with a six-deck shoe object, a
    balance of 100 and two empty hands.  It reads and prints nothing. *)
Theorem X14_new_table (w : World) :
  exists (t : Table.t) (w' : World),
    Table.init w = Ret t w' /\
    Shoe.deck_count (Table.shoe t) = 6 /\
    Player.balance (Table.player t) = 100 /\
    Hand.cards (Player.hand (Table.player t)) = [] /\
    Hand.cards (Dealer.hand (Table.dealer t)) = [] /\
    Permutation (Shoe_shoe w') (Shoe_shoe w ++ decks 6) /\
    List.length (Shoe_shoe w') = (List.length (Shoe_shoe w) + 312)%nat /\
    (forall c : Card,
        count_occ Card_eq_dec (Shoe_shoe w') c =
          (count_occ Card_eq_dec (Shoe_shoe w) c + if in_deck c then 6 else 0)%nat) /\
    stdin w' = stdin w /\ console w' = console w.
Proof.
  destruct (init_spec 6 w) as (x & pos & Einit & Hp).
  change (Z.to_nat 6) with 6%nat in Hp.
  exists fresh_table. eexists. split.
  { unfold Table.init. rewrite (bind_Ret_eq _ _ _ _ _ Einit). reflexivity. }
  world_simpl. repeat (split; [reflexivity | ]).
  split; [exact Hp | ]. split; [ | split; [ | split; reflexivity]].
  - rewrite (Permutation_length Hp), length_app, decks_length. reflexivity.
  - intros c. rewrite (Permutation_count_occ Card_eq_dec) in Hp.
    rewrite Hp, count_occ_app, count_occ_decks. reflexivity.
Qed.
